(** * tap-tap: the monitoring and alerting engine of [LatencyTester]

    A shallow embedding of [src/services/latency-tester.ts] (with the parts of
    [src/services/grafana.ts], [src/db/database.ts] and the [/alerts] route it
    relies on) and the properties of its probe executor, alert evaluator and
    monitor scheduler.

    Conventions of the embedding.
    - A JavaScript [number] that comes from configuration or from a request
      body is a rational [Q]; numbers the code itself produces as integers
      (epoch milliseconds of a [Date], [Math.round] results, HTTP status
      codes, the loop counter [currentTry]) are [Z]. [retryCount] is any
      number: the type of [MonitoringOptions] and the schema of
      [POST /endpoints] admit fractions. [expectedStatusCode] is only
      compared with the whole [response.status] by [===], so a fraction
      there acts as a code that no response carries. Arithmetic is exact:
      the rounding of IEEE doubles is not modelled.
    - Asynchronous methods are functions in a monad with state, exceptions
      and a log of the externally visible events in the order they happen.
      A rejected promise and a synchronous [throw] are both [Throw]. One
      probe cycle runs to completion before another one starts.
    - The outside world (probed target, timers, Grafana, webhook, disk) is a
      [World] record read by the code at its [await] points. *)

From Stdlib Require Import ZArith QArith Qround Lia List.
From stdpp Require Import gmap strings.
Import ListNotations.

Local Open Scope Z_scope.

(** ** Data model: [src/types/index.ts] and [MonitoringOptions] *)

Record LatencyTest := {
  endpoint : string;
  timestamp : Z;          (* [Date], as [getTime()] milliseconds *)
  latency : Z;
  status : Z;
  success : bool
}.

Record AlertThreshold := {
  threshold_endpoint : string;
  maxLatency : option Q;
  minSuccessRate : option Q;
  windowSize : Q;
  notificationUrl : option string
}.

Inductive Method := GET | POST | PUT | DELETE | HEAD.

(** The decoded JSON body handed to [validateResponse], kept as its text. *)
Definition Json := string.

(** What a call of the user supplied [validateResponse] does. *)
Inductive Verdict := Returns (b : bool) | Raises.

Record MonitoringOptions := {
  interval : option Q;
  timeout : option Q;
  retryCount : option Q;
  method : option Method;
  headers : option (list (string * string));
  body : option string;
  expectedStatusCode : option Z;
  validateResponse : option (Json -> Verdict)
}.

Definition noOptions : MonitoringOptions :=
  {| interval := None; timeout := None; retryCount := None; method := None;
     headers := None; body := None; expectedStatusCode := None;
     validateResponse := None |}.

(** ** The outside world *)

Inductive Body := Malformed | Decoded (j : Json).

Record Response := {
  resp_status : Z;
  resp_body : Body;          (* what [response.clone().json()] yields *)
  body_takes : Q             (* time spent decoding and validating the body *)
}.

(** [response.ok] of the fetch standard: a status in the range 200-299. *)
Definition ok (r : Response) : bool :=
  (200 <=? resp_status r) && (resp_status r <=? 299).

(** How the promise returned by [fetch] settles. For the probe request a
    rejection stands for a network error as well as for the abort raised
    when the timer armed with [options.timeout ?? 30000] fires first. *)
Inductive Settled := Rejected | Resolved (r : Response).

Record Attempt := {
  takes : Q;                 (* milliseconds until the promise settles *)
  settles : Settled
}.

Record World := {
  target : nat -> Attempt;   (* the k-th request of a probe, k = 0, 1, ... *)
  timerLag : nat -> Q;       (* how late the k-th retry delay fires *)
  diskFull : bool;           (* the INSERT of [storeResult] fails *)
  grafana : Settled;         (* the POST to [config.GRAFANA.PUSH_URL] *)
  webhook : Settled          (* the POST to the notification url *)
}.

(** ** Events, errors and machine state *)

Definition Timer := nat.

Inductive Alert :=
| HighLatency (avg_latency threshold : Q)
| LowSuccessRate (success_rate threshold : Q).

Inductive Event :=
| Fetch (url : string) (m : Method)
| Delay (ms : Q)
| Insert (r : LatencyTest)
| Push (r : LatencyTest)
| Select (url : string) (windowStart : Q)
| Notify (webhookUrl : string) (about : string) (alerts : list Alert)
| SetInterval (t : Timer) (ms : Q)
| ClearInterval (t : Timer)
| ConsoleError (msg : string).

Inductive Error :=
| FetchFailed                  (* network error or abort *)
| SyntaxError                  (* [json()] on a malformed body *)
| ValidatorError               (* raised inside [validateResponse] *)
| UnexpectedEnd                (* "Unexpected end of performTest" *)
| StoreError                   (* a failed sqlite write *)
| PushFailed                   (* "Failed to push metrics: ..." *)
| TypeError                    (* method call on [null] *)
| ValidationError              (* request body rejected by its schema *)
| AlreadyMonitoring (url : string).

Record State := {
  activeTests : gmap string Timer;
  alertThresholds : gmap string AlertThreshold;
  latency_tests : list LatencyTest;               (* table, newest first *)
  alert_thresholds : gmap string AlertThreshold;  (* table *)
  intervals : gmap Timer (string * MonitoringOptions);  (* armed timers *)
  nextTimer : Timer;
  clock : Q;                 (* [performance.now()] *)
  timeOrigin : Z             (* epoch milliseconds at clock zero *)
}.

(** ** The monad of the asynchronous methods *)

Inductive Outcome (A : Type) :=
| Ok (a : A)
| Throw (e : Error)
| Diverge.                   (* a loop ran out of fuel *)
Arguments Ok {A} a.
Arguments Throw {A} e.
Arguments Diverge {A}.

Definition M (A : Type) : Type := State -> Outcome A * State * list Event.

Definition ret {A} (a : A) : M A := fun s => (Ok a, s, []).
Definition throw {A} (e : Error) : M A := fun s => (Throw e, s, []).
Definition diverge {A} : M A := fun s => (Diverge, s, []).

Definition bind {A B} (m : M A) (k : A -> M B) : M B := fun s =>
  match m s with
  | (Ok a, s1, ev1) => let '(o, s2, ev2) := k a s1 in (o, s2, ev1 ++ ev2)
  | (Throw e, s1, ev1) => (Throw e, s1, ev1)
  | (Diverge, s1, ev1) => (Diverge, s1, ev1)
  end.

(** [try { m } catch (error) { h error }] *)
Definition tryCatch {A} (m : M A) (h : Error -> M A) : M A := fun s =>
  match m s with
  | (Throw e, s1, ev1) => let '(o, s2, ev2) := h e s1 in (o, s2, ev1 ++ ev2)
  | r => r
  end.

Notation "x <- m ;; k" := (bind m (fun x => k))
  (at level 100, m at next level, right associativity).
Notation "m ;; k" := (bind m (fun _ => k))
  (at level 100, right associativity).

Definition emit (e : Event) : M unit := fun s => (Ok tt, s, [e]).
Definition get : M State := fun s => (Ok s, s, []).
Definition put (s : State) : M unit := fun _ => (Ok tt, s, []).

Definition outcome {A} (r : Outcome A * State * list Event) : Outcome A := r.1.1.
Definition final {A} (r : Outcome A * State * list Event) : State := r.1.2.
Definition events {A} (r : Outcome A * State * list Event) : list Event := r.2.

(** ** Clocks *)

Definition set_clock (t : Q) (s : State) : State :=
  {| activeTests := activeTests s; alertThresholds := alertThresholds s;
     latency_tests := latency_tests s; alert_thresholds := alert_thresholds s;
     intervals := intervals s; nextTimer := nextTimer s;
     clock := t; timeOrigin := timeOrigin s |}.

(** Time passing while the code is suspended at an [await]. *)
Definition elapse (ms : Q) : M unit := fun s =>
  (Ok tt, set_clock (clock s + ms)%Q s, []).

Definition performance_now : M Q := fun s => (Ok (clock s), s, []).

(** [new Date()], as epoch milliseconds. *)
Definition new_Date : M Z := fun s => (Ok (timeOrigin s + Qfloor (clock s)), s, []).

(** [Math.round]: the nearest integer, halves rounded up. *)
Definition Math_round (x : Q) : Z := Qfloor (x + (1 # 2))%Q.

(** [a < b] on numbers. *)
Definition Qltb (a b : Q) : bool := negb (Qle_bool b a).

(** ** Probe executor: [performTest] *)

(** Truthiness of an optional number: [undefined] and [0] are falsy. *)
Definition truthyZ (o : option Z) : bool :=
  match o with Some n => negb (n =? 0) | None => false end.

Definition truthyQ (o : option Q) : bool :=
  match o with Some q => negb (Qeq_bool q 0) | None => false end.

Definition truthyString (o : option string) : bool :=
  match o with Some s => negb (String.eqb s "") | None => false end.

(** [options.expectedStatusCode ? response.status === options.expectedStatusCode
     : response.ok] *)
Definition statusAccepted (options : MonitoringOptions) (response : Response) : bool :=
  if truthyZ (expectedStatusCode options)
  then resp_status response =? default 0 (expectedStatusCode options)
  else ok response.

(** The right operand of [&&] in the computation of [success]:
    [!options.validateResponse ||
      (await options.validateResponse(await response.clone().json()))]. *)
Definition validated (options : MonitoringOptions) (response : Response) : M bool :=
  match validateResponse options with
  | None => ret true
  | Some validate =>
      elapse (body_takes response) ;;
      match resp_body response with
      | Malformed => throw SyntaxError
      | Decoded j =>
          match validate j with
          | Returns b => ret b
          | Raises => throw ValidatorError
          end
      end
  end.

(** The body of the [try] block: one attempt. It either returns the result
    of [performTest] or throws. *)
Definition attempt (w : World) (url : string) (options : MonitoringOptions)
    (startTime : Q) (currentTry : Z) : M LatencyTest :=
  emit (Fetch url (default GET (method options))) ;;
  let a := target w (Z.to_nat currentTry) in
  elapse (takes a) ;;
  match settles a with
  | Rejected => throw FetchFailed
  | Resolved response =>
      endTime <- performance_now ;;
      success <- (if statusAccepted options response
                  then validated options response
                  else ret false) ;;
      now <- new_Date ;;
      ret {| endpoint := url; timestamp := now;
             latency := Math_round (endTime - startTime);
             status := resp_status response; success := success |}
  end.

(** The [while (currentTry < maxTries)] loop. [currentTry] counts up from 0
    in steps of 1, [maxTries] is any number. Every iteration that does not
    return increments [currentTry], so [fuel] bounds the iterations. *)
Fixpoint retryLoop (fuel : nat) (w : World) (url : string)
    (options : MonitoringOptions) (startTime : Q) (maxTries : Q) (currentTry : Z)
    : M LatencyTest :=
  match fuel with
  | O => diverge
  | S fuel' =>
      if Qltb (inject_Z currentTry) maxTries then
        tryCatch (attempt w url options startTime currentTry) (fun _ =>
          let currentTry := currentTry + 1 in
          if Qeq_bool (inject_Z currentTry) maxTries then
            endTime <- performance_now ;;
            now <- new_Date ;;
            ret {| endpoint := url; timestamp := now;
                   latency := Math_round (endTime - startTime);
                   status := 0; success := false |}
          else
            emit (Delay 1000) ;;
            elapse (1000 + timerLag w (Z.to_nat currentTry - 1)) ;;
            retryLoop fuel' w url options startTime maxTries currentTry)
      else throw UnexpectedEnd
  end.

Definition performTest (w : World) (url : string) (options : MonitoringOptions)
    : M LatencyTest :=
  startTime <- performance_now ;;
  let currentTry := 0 in
  let maxTries := (default 0 (retryCount options) + 1)%Q in
  retryLoop (S (Z.to_nat (Qceiling maxTries))) w url options startTime maxTries currentTry.

(** ** Result store: the [latency_tests] table *)

Definition same_key (a b : LatencyTest) : bool :=
  (timestamp a =? timestamp b) && String.eqb (endpoint a) (endpoint b).

(** [INSERT OR REPLACE] under [UNIQUE(timestamp, endpoint)]. *)
Definition insert_or_replace (row : LatencyTest) (table : list LatencyTest)
    : list LatencyTest :=
  row :: List.filter (fun old => negb (same_key old row)) table.

Definition set_latency_tests (t : list LatencyTest) (s : State) : State :=
  {| activeTests := activeTests s; alertThresholds := alertThresholds s;
     latency_tests := t; alert_thresholds := alert_thresholds s;
     intervals := intervals s; nextTimer := nextTimer s;
     clock := clock s; timeOrigin := timeOrigin s |}.

Definition storeResult (w : World) (result : LatencyTest) : M unit :=
  if diskFull w then throw StoreError
  else
    emit (Insert result) ;;
    s <- get ;;
    put (set_latency_tests (insert_or_replace result (latency_tests s)) s).

(** The rows matched by [WHERE endpoint = ? AND timestamp >= ?]. *)
Definition in_window (url : string) (windowStart : Q) (row : LatencyTest) : bool :=
  String.eqb (endpoint row) url && Qle_bool windowStart (inject_Z (timestamp row)).

Definition Qsum (xs : list Q) : Q := fold_right Qplus 0%Q xs.

(** SQL [AVG]: [NULL] over no rows, otherwise the sum over the count. *)
Definition AVG (xs : list Q) : option Q :=
  match xs with
  | [] => None
  | _ => Some (Qsum xs / inject_Z (Z.of_nat (length xs)))%Q
  end.

Record Aggregate := {
  avg_latency : option Q;
  success_rate : option Q
}.

Definition recent (table : list LatencyTest) (url : string) (windowStart : Q)
    : Aggregate :=
  let rows := List.filter (in_window url windowStart) table in
  {| avg_latency := AVG (map (fun r => inject_Z (latency r)) rows);
     success_rate := AVG (map (fun r => if success r then 1%Q else 0%Q) rows) |}.

(** ** Alert evaluator: [checkAlertThresholds] and [sendAlert] *)

(** A [null] operand of [<] or [>] is converted to the number 0. *)
Definition ToNumber (v : option Q) : Q := default 0%Q v.

(** [threshold.maxLatency && recentTests.avg_latency > threshold.maxLatency] *)
Definition latencyBreach (threshold : AlertThreshold) (recentTests : Aggregate) : bool :=
  truthyQ (maxLatency threshold) &&
  Qltb (default 0%Q (maxLatency threshold)) (ToNumber (avg_latency recentTests)).

(** [threshold.minSuccessRate &&
     recentTests.success_rate < threshold.minSuccessRate] *)
Definition successRateBreach (threshold : AlertThreshold) (recentTests : Aggregate) : bool :=
  truthyQ (minSuccessRate threshold) &&
  Qltb (ToNumber (success_rate recentTests)) (default 0%Q (minSuccessRate threshold)).

Definition sendAlert (w : World) (about : string) (alerts : list Alert)
    (webhookUrl : string) : M unit :=
  tryCatch
    (emit (Notify webhookUrl about alerts) ;;
     match webhook w with
     | Rejected => throw FetchFailed
     | Resolved _ => ret tt
     end)
    (fun _ => emit (ConsoleError ("Failed to send alert for " ++ about))).

Definition checkAlertThresholds (w : World) (result : LatencyTest) : M unit :=
  s <- get ;;
  match alertThresholds s !! endpoint result with
  | None => ret tt
  | Some threshold =>
      let windowStart := (inject_Z (timestamp result) - windowSize threshold)%Q in
      emit (Select (endpoint result) windowStart) ;;
      let recentTests := recent (latency_tests s) (endpoint result) windowStart in
      alerts <- (if latencyBreach threshold recentTests then
                   match avg_latency recentTests with
                   | None => throw TypeError       (* [null.toFixed(2)] *)
                   | Some avg =>
                       ret [HighLatency avg (default 0%Q (maxLatency threshold))]
                   end
                 else ret []) ;;
      let alerts :=
        if successRateBreach threshold recentTests then
          alerts ++ [LowSuccessRate (ToNumber (success_rate recentTests))
                                    (default 0%Q (minSuccessRate threshold))]
        else alerts in
      if negb (Nat.eqb (length alerts) 0) && truthyString (notificationUrl threshold)
      then sendAlert w (endpoint result) alerts (default "" (notificationUrl threshold))
      else ret tt
  end.

(** ** Telemetry sink: [GrafanaService.pushMetrics] *)

Definition pushMetrics (w : World) (test : LatencyTest) : M unit :=
  tryCatch
    (emit (Push test) ;;
     match grafana w with
     | Rejected => throw FetchFailed
     | Resolved response =>
         if negb (ok response) then throw PushFailed else ret tt
     end)
    (fun error =>
       emit (ConsoleError "Error pushing metrics to Grafana:") ;;
       emit (ConsoleError "   Details:") ;;
       throw error).

(** ** One probe cycle: [testEndpoint] *)

Definition testEndpoint (w : World) (url : string) (options : MonitoringOptions)
    : M LatencyTest :=
  result <- performTest w url options ;;
  storeResult w result ;;
  pushMetrics w result ;;
  checkAlertThresholds w result ;;
  ret result.

(** ** Threshold table *)

Definition set_thresholds (mem tbl : gmap string AlertThreshold) (s : State) : State :=
  {| activeTests := activeTests s; alertThresholds := mem;
     latency_tests := latency_tests s; alert_thresholds := tbl;
     intervals := intervals s; nextTimer := nextTimer s;
     clock := clock s; timeOrigin := timeOrigin s |}.

Definition setAlertThreshold (threshold : AlertThreshold) : M unit :=
  s <- get ;;
  put (set_thresholds (<[threshold_endpoint threshold := threshold]> (alertThresholds s))
                      (<[threshold_endpoint threshold := threshold]> (alert_thresholds s)) s).

Definition removeAlertThreshold (url : string) : M unit :=
  s <- get ;;
  put (set_thresholds (delete url (alertThresholds s)) (delete url (alert_thresholds s)) s).

Definition getAlertThreshold (url : string) : M (option AlertThreshold) :=
  s <- get ;;
  ret (alertThresholds s !! url).

(** ** Monitor scheduler *)

Definition set_sessions (sessions : gmap string Timer)
    (armed : gmap Timer (string * MonitoringOptions)) (next : Timer) (s : State) : State :=
  {| activeTests := sessions; alertThresholds := alertThresholds s;
     latency_tests := latency_tests s; alert_thresholds := alert_thresholds s;
     intervals := armed; nextTimer := next;
     clock := clock s; timeOrigin := timeOrigin s |}.

(** [setInterval(() => this.testEndpoint(url, options).catch(console.error), ms)]:
    the runtime hands out a fresh timer and keeps it armed until it is
    cleared. *)
Definition setInterval (url : string) (options : MonitoringOptions) (ms : Q) : M Timer :=
  s <- get ;;
  let timer := nextTimer s in
  emit (SetInterval timer ms) ;;
  put (set_sessions (activeTests s) (<[timer := (url, options)]> (intervals s)) (S timer) s) ;;
  ret timer.

Definition clearInterval (timer : Timer) : M unit :=
  emit (ClearInterval timer) ;;
  s <- get ;;
  put (set_sessions (activeTests s) (delete timer (intervals s)) (nextTimer s) s).

Section Scheduler.

(** [config.DEFAULT_INTERVAL], read from the environment at start-up. *)
Variable DEFAULT_INTERVAL : Q.

Definition normalize (options : option (Q + MonitoringOptions)) : MonitoringOptions :=
  match default (inl DEFAULT_INTERVAL) options with
  | inl n =>
      {| interval := Some n; timeout := None; retryCount := None; method := None;
         headers := None; body := None; expectedStatusCode := None;
         validateResponse := None |}
  | inr o => o
  end.

Definition startMonitoring (w : World) (url : string)
    (options : option (Q + MonitoringOptions)) : M LatencyTest :=
  s <- get ;;
  match activeTests s !! url with
  | Some _ => throw (AlreadyMonitoring url)
  | None =>
      let normalizedOptions := normalize options in
      let interval := default DEFAULT_INTERVAL (interval normalizedOptions) in
      timer <- setInterval url normalizedOptions interval ;;
      s <- get ;;
      put (set_sessions (<[url := timer]> (activeTests s)) (intervals s) (nextTimer s) s) ;;
      testEndpoint w url normalizedOptions    (* Initial test *)
  end.

End Scheduler.

(** A timer handle is an object, hence truthy: [if (timer)] only tests
    that the session exists. *)
Definition stopMonitoring (url : string) : M unit :=
  s <- get ;;
  match activeTests s !! url with
  | Some timer =>
      clearInterval timer ;;
      s <- get ;;
      put (set_sessions (delete url (activeTests s)) (intervals s) (nextTimer s) s)
  | None => ret tt
  end.

Definition getActiveEndpoints : M (gset string) :=
  s <- get ;;
  ret (dom (activeTests s)).

(** [close]: clear the timer of every session, then empty the session
    table. The order in which the timers are cleared is not modelled. *)
Definition close : M unit :=
  s <- get ;;
  fold_right (fun timer rest => clearInterval timer ;; rest) (ret tt)
             (map snd (map_to_list (activeTests s))) ;;
  s <- get ;;
  put (set_sessions ∅ (intervals s) (nextTimer s) s).

(** One firing of an armed timer: the callback given to [setInterval]. *)
Definition onInterval (w : World) (timer : Timer) : M unit :=
  s <- get ;;
  match intervals s !! timer with
  | None => ret tt
  | Some (url, options) =>
      tryCatch (testEndpoint w url options ;; ret tt)
               (fun _ => emit (ConsoleError "testEndpoint rejected"))
  end.

(** ** Management surface: the body schema of [POST /alerts] *)

Section Management.

(** The [format: "uri"] check of the schema library. *)
Variable is_uri : string -> bool.

Definition optional {A} (p : A -> bool) (o : option A) : bool :=
  match o with Some a => p a | None => true end.

Definition alertBodySchema (body : AlertThreshold) : bool :=
  is_uri (threshold_endpoint body)
  && optional (fun n => Qle_bool 0 n) (maxLatency body)
  && optional (fun n => Qle_bool 0 n && Qle_bool n 1) (minSuccessRate body)
  && Qle_bool 1000 (windowSize body)
  && optional is_uri (notificationUrl body).

Definition postAlerts (body : AlertThreshold) : M unit :=
  if alertBodySchema body then setAlertThreshold body
  else throw ValidationError.

End Management.

(** ** Start-up: [loadAlertThresholds] *)

(** The constructor reads every row of the [alert_thresholds] table and puts
    it into the in-memory map under its [endpoint] column, in the order of
    the rows. A [NULL] column and an absent field are both [None]. *)
Definition loadAlertThresholds : M unit :=
  s <- get ;;
  put (set_thresholds
         (fold_left (fun mem row => <[threshold_endpoint row := row]> mem)
                    (map snd (map_to_list (alert_thresholds s)))
                    (alertThresholds s))
         (alert_thresholds s) s).

(** ** Line protocol: [GrafanaService.escapeValue] *)

Section LineProtocol.

Import Stdlib.Strings.Ascii.

(** [value.replace(/c/g, replacement)]: every occurrence of the character
    is replaced. *)
Fixpoint replaceAll (c : Ascii.ascii) (replacement : string) (value : string) : string :=
  match value with
  | EmptyString => EmptyString
  | String x rest =>
      if Ascii.eqb x c then (replacement ++ replaceAll c replacement rest)%string
      else String x (replaceAll c replacement rest)
  end.

Definition escapeValue (value : string) : string :=
  replaceAll "="%char "\=" (replaceAll " "%char "\ " (replaceAll ","%char "\," value)).

End LineProtocol.

(** ** Default endpoints: [getEndpointWithAuth] *)

Inductive Location := header | query.

Inductive Auth :=
| apiKey (envVar : string) (location : Location) (paramName : string)
| bearer (envVar : string)
| basic (usernameEnvVar passwordEnvVar : string)
| none.

Record DefaultEndpoint := {
  de_name : string;
  de_url : string;
  de_interval : option Q;
  de_timeout : option Q;
  de_retryCount : option Q;
  de_headers : option (gmap string string);
  de_auth : Auth;
  de_method : Method;
  de_body : option string;
  de_expectedStatusCode : option Z;
  de_validateResponse : option (Json -> Verdict)
}.

(** The errors [getEndpointWithAuth] throws. *)
Inductive AuthError :=
| InvalidURL                                  (* [new URL] rejects the text *)
| ApiKeyNotFound (envVar : string)
| BearerTokenNotFound (envVar : string)
| BasicCredentialsNotFound (usernameEnvVar passwordEnvVar : string).

Record AuthenticatedRequest := {
  ar_url : string;
  ar_headers : gmap string string;
  ar_body : option string
}.

Section DefaultEndpoints.

(** The platform's [URL] class and base64 encoder. *)
Variable URL : Type.
Variable new_URL : string -> option URL.
Variable searchParams_set : string -> string -> URL -> URL.
Variable URL_toString : URL -> string.
Variable base64 : string -> string.

(** [process.env[name]] when it is truthy: set and not the empty string. *)
Definition secret (env : gmap string string) (name : string) : option string :=
  match env !! name with
  | Some value => if String.eqb value "" then None else Some value
  | None => None
  end.

Definition getEndpointWithAuth (env : gmap string string) (endpoint : DefaultEndpoint)
    : AuthError + AuthenticatedRequest :=
  let headers := default ∅ (de_headers endpoint) in
  match new_URL (de_url endpoint) with
  | None => inl InvalidURL
  | Some url =>
      let finish url headers :=
        inr {| ar_url := URL_toString url; ar_headers := headers;
               ar_body := de_body endpoint |} in
      match de_auth endpoint with
      | apiKey envVar location paramName =>
          match secret env envVar with
          | None => inl (ApiKeyNotFound envVar)
          | Some key =>
              match location with
              | header => finish url (<[paramName := key]> headers)
              | query => finish (searchParams_set paramName key url) headers
              end
          end
      | bearer envVar =>
          match secret env envVar with
          | None => inl (BearerTokenNotFound envVar)
          | Some token => finish url (<["Authorization" := ("Bearer " ++ token)%string]> headers)
          end
      | basic usernameEnvVar passwordEnvVar =>
          match secret env usernameEnvVar, secret env passwordEnvVar with
          | Some username, Some password =>
              finish url (<["Authorization" :=
                              ("Basic " ++ base64 (username ++ ":" ++ password))%string]> headers)
          | _, _ => inl (BasicCredentialsNotFound usernameEnvVar passwordEnvVar)
          end
      | none => finish url headers
      end
  end.

End DefaultEndpoints.

(** * Vocabulary of the properties *)

(** ** Observations on the events of a run *)

Definition isFetch (e : Event) : bool :=
  match e with Fetch _ _ => true | _ => false end.

Definition isDelay (e : Event) : bool :=
  match e with Delay _ => true | _ => false end.

Definition isSelect (e : Event) : bool :=
  match e with Select _ _ => true | _ => false end.

Definition isNotify (e : Event) : bool :=
  match e with Notify _ _ _ => true | _ => false end.

(** The number of HTTP requests a run issued against the probed target. *)
Definition attempts (evs : list Event) : nat := length (List.filter isFetch evs).

Definition delays (evs : list Event) : nat := length (List.filter isDelay evs).

(** ** The tries of a probe *)

(** The number is a whole number. *)
Definition whole (q : Q) : bool := Qeq_bool (inject_Z (Qfloor q)) q.

(** The number of tries the loop condition [currentTry < maxTries] admits:
    the whole numbers 0, 1, ... below [retryCount + 1]. *)
Definition maxAttempts (options : MonitoringOptions) : nat :=
  Z.to_nat (Qceiling (default 0%Q (retryCount options) + 1)).

(** ** How an attempt and a push can end *)

(** The attempt ends in the [catch] block: the request is rejected or
    aborted, or the body of an accepted response fails to decode, or the
    validator raises. *)
Definition attemptThrows (options : MonitoringOptions) (a : Attempt) : bool :=
  match settles a with
  | Rejected => true
  | Resolved response =>
      statusAccepted options response &&
      match validateResponse options with
      | None => false
      | Some validate =>
          match resp_body response with
          | Malformed => true
          | Decoded j => match validate j with Raises => true | Returns _ => false end
          end
      end
  end.

(** The verdict of an attempt that reaches the [return] of the [try] block. *)
Definition attemptVerdict (options : MonitoringOptions) (response : Response) : bool :=
  statusAccepted options response &&
  match validateResponse options with
  | None => true
  | Some validate =>
      match resp_body response with
      | Malformed => false
      | Decoded j => match validate j with Raises => false | Returns b => b end
      end
  end.

(** An attempt fails in the sense of the specification (section 4.1, step
    6): network error, timeout, status mismatch or validator failure. *)
Definition attemptFails (options : MonitoringOptions) (a : Attempt) : bool :=
  match settles a with
  | Rejected => true
  | Resolved response => negb (attemptVerdict options response)
  end.

(** The time an attempt consumes. The body is read only when the status is
    accepted and a validator is configured. *)
Definition spent (options : MonitoringOptions) (a : Attempt) : Q :=
  match settles a with
  | Rejected => takes a
  | Resolved response =>
      if statusAccepted options response
      then match validateResponse options with
           | Some _ => (takes a + body_takes response)%Q
           | None => takes a
           end
      else takes a
  end.

(** The time from the start of attempt [from] to the verdict when the
    [count] attempts [from], [from + 1], ... all end in the [catch] block:
    every attempt, and the delay of 1000 ms (plus the timer's lag) after
    each of them but the last. *)
Definition exhaustionTime (w : World) (options : MonitoringOptions)
    (from count : nat) : Q :=
  (Qsum (map (fun k => spent options (target w k)) (seq from count)) +
   Qsum (map (fun k => 1000 + timerLag w k) (seq from (count - 1))))%Q.

(** The push is refused: the request fails, or Grafana answers with a
    status outside 200-299. *)
Definition pushFails (w : World) : bool :=
  match grafana w with
  | Rejected => true
  | Resolved response => negb (ok response)
  end.

(** ** Frames and totality *)

(** [s'] differs from [s] in the clock at most. *)
Definition clock_only (s s' : State) : Prop := s' = set_clock (clock s') s.

(** The scheduler's tables, the threshold tables and the timers of the
    runtime are as they were. *)
Definition scheduler_untouched (s s' : State) : Prop :=
  activeTests s' = activeTests s
  /\ intervals s' = intervals s
  /\ nextTimer s' = nextTimer s
  /\ alertThresholds s' = alertThresholds s
  /\ alert_thresholds s' = alert_thresholds s.

(** Every run of [m] relates its initial to its final state by [R]. *)
Definition keeps {A} (R : State -> State -> Prop) (m : M A) : Prop :=
  forall s, R s (final (m s)).

(** No run of [m] runs out of fuel. *)
Definition total {A} (m : M A) : Prop :=
  forall s, outcome (m s) <> Diverge.

(** The state in which the initial probe cycle of a new session runs: the
    repeating timer is armed and the session is registered. *)
Definition armed (url : string) (options : MonitoringOptions) (s : State) : State :=
  set_sessions (<[url := nextTimer s]> (activeTests s))
               (<[nextTimer s := (url, options)]> (intervals s))
               (S (nextTimer s)) s.

(** ** The alerts of an evaluation *)

(** The messages collected in [alerts]. *)
Definition breaches (threshold : AlertThreshold) (recentTests : Aggregate) : list Alert :=
  (if latencyBreach threshold recentTests
   then [HighLatency (ToNumber (avg_latency recentTests))
                     (default 0%Q (maxLatency threshold))]
   else [])
  ++
  (if successRateBreach threshold recentTests
   then [LowSuccessRate (ToNumber (success_rate recentTests))
                        (default 0%Q (minSuccessRate threshold))]
   else []).

(** What the last statement of [checkAlertThresholds] does with [alerts]. *)
Definition notification (w : World) (threshold : AlertThreshold) (about : string)
    (alerts : list Alert) : list Event :=
  if negb (Nat.eqb (length alerts) 0) && truthyString (notificationUrl threshold)
  then Notify (default "" (notificationUrl threshold)) about alerts
       :: match webhook w with
          | Rejected => [ConsoleError ("Failed to send alert for " ++ about)]
          | Resolved _ => []
          end
  else [].

(** ** Concrete scenarios *)

(** The engine right after construction, with empty tables. *)
Definition boot : State :=
  {| activeTests := ∅; alertThresholds := ∅; latency_tests := [];
     alert_thresholds := ∅; intervals := ∅; nextTimer := 0%nat;
     clock := 0%Q; timeOrigin := 1700000000000 |}.

Definition responding (code : Z) : Response :=
  {| resp_status := code; resp_body := Decoded "{}"; body_takes := 0%Q |}.

(** A world in which every probe request settles the same way after 50 ms,
    timers fire on time, the disk has room and the webhook answers. *)
Definition steady (probe push : Settled) : World :=
  {| target := fun _ => {| takes := 50%Q; settles := probe |};
     timerLag := fun _ => 0%Q;
     diskFull := false;
     grafana := push;
     webhook := Resolved (responding 200) |}.

Definition healthy : World := steady (Resolved (responding 200)) (Resolved (responding 204)).
Definition erroring : World := steady (Resolved (responding 500)) (Resolved (responding 204)).
Definition unreachable : World := steady Rejected (Resolved (responding 204)).
Definition grafanaDown : World := steady (Resolved (responding 200)) Rejected.

Definition rejectAll : Json -> Verdict := fun _ => Returns false.

Definition retrying (n : Q) (validate : option (Json -> Verdict)) : MonitoringOptions :=
  {| interval := None; timeout := None; retryCount := Some n; method := None;
     headers := None; body := None; expectedStatusCode := None;
     validateResponse := validate |}.

(** Ten results of one endpoint, the [failures] oldest ones failed. *)
Definition tenResults (failures : nat) : list LatencyTest :=
  map (fun k => {| endpoint := "https://a.test"; timestamp := Z.of_nat k * 1000;
                   latency := 100; status := 200;
                   success := negb (k <? failures)%nat |})
      (seq 0 10).

Definition onlySuccessRate (m : Q) : AlertThreshold :=
  {| threshold_endpoint := "https://a.test"; maxLatency := None;
     minSuccessRate := Some m; windowSize := 60000%Q;
     notificationUrl := Some "https://hook.test" |}.

Definition onlyLatency (m : Q) : AlertThreshold :=
  {| threshold_endpoint := "https://a.test"; maxLatency := Some m;
     minSuccessRate := None; windowSize := 60000%Q;
     notificationUrl := Some "https://hook.test" |}.

Definition withLimits (maxLatency minSuccessRate : option Q) (body : AlertThreshold)
    : AlertThreshold :=
  {| threshold_endpoint := threshold_endpoint body;
     maxLatency := maxLatency; minSuccessRate := minSuccessRate;
     windowSize := windowSize body; notificationUrl := notificationUrl body |}.

(** ** The claims of the specification that the code does not meet *)

(** The claim as the specification words it: with a validator that returns
    false on every attempt and requests that complete, [retryCount = n]
    leads to [n + 1] attempts. *)
Definition validator_rejection_exhausts_retries : Prop :=
  forall w url options validate n s,
    validateResponse options = Some validate ->
    (forall j, validate j = Returns false) ->
    retryCount options = Some (inject_Z n) -> 0 <= n ->
    (forall k, exists response j,
        settles (target w k) = Resolved response /\ resp_body response = Decoded j) ->
    attempts (events (performTest w url options s)) = Z.to_nat (n + 1).

(** The claim as the specification words it. *)
Definition failing_target_exhausts_retries : Prop :=
  forall w url options n s,
    (default 0 (retryCount options) == inject_Z n)%Q -> 0 <= n ->
    (forall k, attemptFails options (target w k) = true) ->
    exists r,
      outcome (performTest w url options s) = Ok r
      /\ success r = false /\ status r = 0
      /\ attempts (events (performTest w url options s)) = Z.to_nat (n + 1).

(** The claim as the specification words it: the events of the awaited
    probe cycle all come before the timer is armed, and the session is
    registered when the call returns. *)
Definition probe_precedes_timer : Prop :=
  forall DEFAULT_INTERVAL w url options s r,
    outcome (startMonitoring DEFAULT_INTERVAL w url options s) = Ok r ->
    exists cycle timer,
      events (startMonitoring DEFAULT_INTERVAL w url options s)
        = cycle ++ [SetInterval timer
                      (default DEFAULT_INTERVAL
                         (interval (normalize DEFAULT_INTERVAL options)))]
      /\ activeTests (final (startMonitoring DEFAULT_INTERVAL w url options s)) !! url
         = Some timer.

(** The claim as the specification words it: over an empty window neither
    breach fires and no notification is sent. *)
Definition empty_window_is_no_breach : Prop :=
  forall w result s threshold,
    alertThresholds s !! endpoint result = Some threshold ->
    List.filter (in_window (endpoint result)
                   (inject_Z (timestamp result) - windowSize threshold))
                (latency_tests s) = [] ->
    latencyBreach threshold
      (recent (latency_tests s) (endpoint result)
         (inject_Z (timestamp result) - windowSize threshold)) = false
    /\ successRateBreach threshold
         (recent (latency_tests s) (endpoint result)
            (inject_Z (timestamp result) - windowSize threshold)) = false
    /\ List.filter isNotify (events (checkAlertThresholds w result s)) = [].

(** The claim as the specification words it: when only the push fails (the
    probe returns its result and the insert goes through), the cycle does
    not reject, the result is still evaluated against the endpoint's
    threshold, and the timers stay armed. *)
Definition push_failure_is_contained : Prop :=
  forall w url options s,
    pushFails w = true -> diskFull w = false ->
    (exists r, outcome (performTest w url options s) = Ok r) ->
    (exists r, outcome (testEndpoint w url options s) = Ok r)
    /\ (alertThresholds s !! url <> None ->
        List.filter isSelect (events (testEndpoint w url options s)) <> [])
    /\ (forall timer, scheduler_untouched s (final (onInterval w timer s))).

(** ** Vocabulary of the further properties *)

(** The time from the start of attempt [from] to the start of attempt
    [from + count] when the attempts in between all end in the [catch]
    block: each of them, and the delay after it. *)
Definition retryTime (w : World) (options : MonitoringOptions) (from count : nat) : Q :=
  Qsum (map (fun k => spent options (target w k) + (1000 + timerLag w k))%Q
            (seq from count)).

(** The columns of the [UNIQUE(timestamp, endpoint)] constraint. *)
Definition key (row : LatencyTest) : Z * string := (timestamp row, endpoint row).

(** No two rows of the table share their key. *)
Definition unique_keys (table : list LatencyTest) : Prop := List.NoDup (map key table).

Definition isConsoleError (e : Event) : bool :=
  match e with ConsoleError _ => true | _ => false end.

(** The events of a run without the lines written to the console. *)
Definition withoutLog (evs : list Event) : list Event :=
  List.filter (fun e => negb (isConsoleError e)) evs.

(** A healthy target, with the disk full or not. *)
Definition steady' (full : bool) : World :=
  {| target := fun _ => {| takes := 50%Q; settles := Resolved (responding 200) |};
     timerLag := fun _ => 0%Q;
     diskFull := full;
     grafana := Resolved (responding 204);
     webhook := Resolved (responding 200) |}.

(** Every row of the thresholds table sits under its own endpoint. *)
Definition well_keyed (table : gmap string AlertThreshold) : Prop :=
  forall url row, table !! url = Some row -> threshold_endpoint row = url.

(** The in-memory thresholds are what the table holds. *)
Definition mirrored (s : State) : Prop :=
  alertThresholds s = alert_thresholds s /\ well_keyed (alert_thresholds s).

(** A new process on the database file of [s]: the tables are kept, the
    memory of the engine and the timers of the runtime start empty. *)
Definition restarted (origin : Z) (s : State) : State :=
  {| activeTests := ∅; alertThresholds := ∅; latency_tests := latency_tests s;
     alert_thresholds := alert_thresholds s; intervals := ∅; nextTimer := 0%nat;
     clock := 0%Q; timeOrigin := origin |}.

(** The session table and the armed timers of the runtime correspond: the
    timer of every session is armed for that session's endpoint, every armed
    timer belongs to a session, and no armed timer is one the runtime has
    yet to hand out. *)
Definition sessions_consistent (s : State) : Prop :=
  (forall url timer, activeTests s !! url = Some timer ->
     exists options, intervals s !! timer = Some (url, options))
  /\ (forall timer url options, intervals s !! timer = Some (url, options) ->
     activeTests s !! url = Some timer)
  /\ (forall timer, intervals s !! timer <> None -> (timer < nextTimer s)%nat).

(** Every threshold in memory has a window size that is not negative. *)
Definition windows_nonneg (s : State) : Prop :=
  forall url threshold, alertThresholds s !! url = Some threshold ->
                        (0 <= windowSize threshold)%Q.

Section LineProtocolVocabulary.

Import Stdlib.Strings.Ascii.

(** The characters that separate the parts of a line of the protocol. *)
Definition isSeparator (c : ascii) : bool :=
  Ascii.eqb c "," || Ascii.eqb c " " || Ascii.eqb c "=".

(** Escaping in one pass: a backslash in front of every separator. *)
Fixpoint escapeEach (value : string) : string :=
  match value with
  | EmptyString => EmptyString
  | String c rest =>
      if isSeparator c then String "\" (String c (escapeEach rest))
      else String c (escapeEach rest)
  end.

(** Some separator of the text does not directly follow a backslash;
    [escaped] tells whether the text itself directly follows one. *)
Fixpoint bareSeparator (escaped : bool) (value : string) : bool :=
  match value with
  | EmptyString => false
  | String c rest =>
      (isSeparator c && negb escaped) || bareSeparator (Ascii.eqb c "\") rest
  end.

(** The text contains a separator. *)
Fixpoint hasSeparator (value : string) : bool :=
  match value with
  | EmptyString => false
  | String c rest => isSeparator c || hasSeparator rest
  end.

End LineProtocolVocabulary.

(** The credential a default endpoint needs is not in the environment. *)
Definition missingSecret (env : gmap string string) (auth : Auth) : bool :=
  match auth with
  | apiKey envVar _ _ => bool_decide (secret env envVar = None)
  | bearer envVar => bool_decide (secret env envVar = None)
  | basic usernameEnvVar passwordEnvVar =>
      bool_decide (secret env usernameEnvVar = None)
      || bool_decide (secret env passwordEnvVar = None)
  | none => false
  end.

(** The header that carries the credential, if a header does. *)
Definition credentialHeader (auth : Auth) : option string :=
  match auth with
  | apiKey _ header paramName => Some paramName
  | apiKey _ query _ => None
  | bearer _ => Some "Authorization"
  | basic _ _ => Some "Authorization"
  | none => None
  end.

(** A default endpoint with bearer authentication, the environment that
    holds its token, and a [URL] class that keeps the text as it is. *)
Definition tokenEnv : gmap string string := {[ "API_TOKEN"%string := "s3cret"%string ]}.

Definition bearerEndpoint : DefaultEndpoint :=
  {| de_name := "api"; de_url := "https://a.test/health";
     de_interval := None; de_timeout := None; de_retryCount := Some 3%Q;
     de_headers := Some {[ "Accept"%string := "application/json"%string ]};
     de_auth := bearer "API_TOKEN"; de_method := GET; de_body := None;
     de_expectedStatusCode := Some 200; de_validateResponse := None |}.

Definition bearerRequest : AuthenticatedRequest :=
  {| ar_url := "https://a.test/health";
     ar_headers := <[ "Authorization"%string := "Bearer s3cret"%string ]>
                     {[ "Accept"%string := "application/json"%string ]};
     ar_body := None |}.

(** A target that is unreachable for the first two requests and answers the
    third one with status 200. *)
Definition recovering : World :=
  {| target := fun k => {| takes := 50%Q;
                           settles := if (k <? 2)%nat then Rejected
                                      else Resolved (responding 200) |};
     timerLag := fun _ => 0%Q;
     diskFull := false;
     grafana := Resolved (responding 204);
     webhook := Resolved (responding 200) |}.

(** The alerts carried by the notifications of a run. *)
Definition alertsSent (evs : list Event) : list Alert :=
  flat_map (fun e => match e with Notify _ _ alerts => alerts | _ => [] end) evs.

(** The claim as the specification words it: over the results of a window,
    each breach fires exactly when its aggregate is strictly beyond its
    limit. *)
Definition breach_iff_beyond_limit : Prop :=
  forall threshold table url windowStart avg rate,
    avg_latency (recent table url windowStart) = Some avg ->
    success_rate (recent table url windowStart) = Some rate ->
    (forall m, minSuccessRate threshold = Some m ->
       successRateBreach threshold (recent table url windowStart) = true
       <-> (rate < m)%Q)
    /\ (forall m, maxLatency threshold = Some m ->
       latencyBreach threshold (recent table url windowStart) = true
       <-> (m < avg)%Q).

(** The newest of the ten results, and the engine that holds the ten
    results and a threshold for their endpoint. *)
Definition lastOfTen : LatencyTest :=
  {| endpoint := "https://a.test"; timestamp := 9000; latency := 100;
     status := 200; success := true |}.

Definition afterTen (failures : nat) (threshold : AlertThreshold) : State :=
  set_latency_tests (tenResults failures) (final (setAlertThreshold threshold boot)).

(** A threshold whose window lies in the future of every result: the
    window size is negative. *)
Definition windowAhead : AlertThreshold :=
  {| threshold_endpoint := "https://a.test"; maxLatency := None;
     minSuccessRate := Some (9 # 10); windowSize := (-1)%Q;
     notificationUrl := Some "https://hook.test" |}.

(** * Properties *)

(** ** Running monadic code *)

Lemma tryCatch_ok {A} (m : M A) h s a s1 ev1 :
  m s = (Ok a, s1, ev1) -> tryCatch m h s = (Ok a, s1, ev1).
Proof. intros H. unfold tryCatch. rewrite H. reflexivity. Qed.

Lemma tryCatch_throw {A} (m : M A) h s e s1 ev1 :
  m s = (Throw e, s1, ev1) ->
  tryCatch m h s = (outcome (h e s1), final (h e s1), ev1 ++ events (h e s1)).
Proof.
  intros H. unfold tryCatch. rewrite H. destruct (h e s1) as [[o s2] ev2]. reflexivity.
Qed.

(** Unfold the monad, leaving arithmetic on [Q] and [Z] untouched. *)
Ltac run :=
  cbv beta iota zeta delta
    [bind emit elapse performance_now new_Date ret throw diverge tryCatch get put
     app outcome final events fst snd];
  cbn [clock timeOrigin activeTests alertThresholds latency_tests alert_thresholds
       intervals nextTimer set_clock set_latency_tests set_thresholds set_sessions].

(** Solve [run = (o, ?s, evs)] where [o] mentions [?s]: fix the state first. *)
Ltac same_state :=
  match goal with
  | |- (_, ?x, _) = (_, ?y, _) => unify x y; reflexivity
  end.

(** Case analysis on the condition of the outermost [if] of the goal. *)
Ltac case_if :=
  match goal with
  | |- context [if ?b then _ else _] => destruct b
  end.

(** ** What a run may change *)

Lemma clock_only_refl s : clock_only s s.
Proof. destruct s. reflexivity. Qed.

Lemma clock_only_set t s : clock_only s (set_clock t s).
Proof. reflexivity. Qed.

Lemma clock_only_trans s1 s2 s3 :
  clock_only s1 s2 -> clock_only s2 s3 -> clock_only s1 s3.
Proof.
  unfold clock_only. intros H12 H23. rewrite H23. rewrite H12 at 1. reflexivity.
Qed.

Create HintDb probe.
#[local] Hint Resolve clock_only_refl clock_only_set clock_only_trans : probe.

(** ** The probe executor *)

Lemma attempt_throws w url options startTime currentTry s :
  attemptThrows options (target w (Z.to_nat currentTry)) = true ->
  exists e s',
    attempt w url options startTime currentTry s
      = (Throw e, s', [Fetch url (default GET (method options))])
    /\ clock_only s s'
    /\ (clock s' == clock s + spent options (target w (Z.to_nat currentTry)))%Q.
Proof.
  unfold attemptThrows, attempt, spent, validated.
  destruct (target w (Z.to_nat currentTry)) as [d [|response]]; cbn [settles takes].
  - intros _. exists FetchFailed. eexists. split; [reflexivity|].
    split; [apply clock_only_set | reflexivity].
  - destruct (statusAccepted options response) eqn:Hst; [|discriminate].
    destruct (validateResponse options) as [validate|]; [|discriminate].
    cbn [andb]. destruct (resp_body response) as [|j].
    + intros _. exists SyntaxError. eexists. run. split; [reflexivity|].
      split; [reflexivity | run; ring].
    + destruct (validate j); [discriminate|]. intros _.
      exists ValidatorError. eexists. run. split; [reflexivity|].
      split; [reflexivity | run; ring].
Qed.

Lemma attempt_returns w url options startTime currentTry s response :
  settles (target w (Z.to_nat currentTry)) = Resolved response ->
  attemptThrows options (target w (Z.to_nat currentTry)) = false ->
  exists s',
    attempt w url options startTime currentTry s
      = (Ok {| endpoint := url;
               timestamp := timeOrigin s + Qfloor (clock s');
               latency := Math_round (clock s + takes (target w (Z.to_nat currentTry))
                                      - startTime);
               status := resp_status response;
               success := attemptVerdict options response |},
         s', [Fetch url (default GET (method options))])
    /\ clock_only s s'
    /\ (clock s' == clock s + spent options (target w (Z.to_nat currentTry)))%Q.
Proof.
  unfold attemptThrows, attempt, spent, validated, attemptVerdict.
  destruct (target w (Z.to_nat currentTry)) as [d st]; cbn [settles takes].
  intros ->. destruct (statusAccepted options response) eqn:Hst; cbn [andb].
  - destruct (validateResponse options) as [validate|].
    + destruct (resp_body response) as [|j]; [discriminate|].
      destruct (validate j) as [b|]; [|discriminate]. intros _.
      eexists. run. split; [same_state|]. split; [reflexivity | run; ring].
    + intros _. eexists. run. split; [same_state|]. split; [reflexivity | run; ring].
  - intros _. eexists. run. split; [same_state|]. split; [reflexivity | run; ring].
Qed.

Lemma clock_only_timeOrigin s s' : clock_only s s' -> timeOrigin s' = timeOrigin s.
Proof. intros ->. reflexivity. Qed.

Lemma exhaustionTime_one w options i :
  (exhaustionTime w options i 1 == spent options (target w i))%Q.
Proof. unfold exhaustionTime, Qsum. cbn [seq map fold_right Nat.sub]. ring. Qed.

Lemma exhaustionTime_step w options i n :
  (exhaustionTime w options i (S (S n)) ==
   spent options (target w i) + (1000 + timerLag w i)
   + exhaustionTime w options (S i) (S n))%Q.
Proof.
  unfold exhaustionTime, Qsum.
  replace (S (S n) - 1)%nat with (S n) by lia.
  replace (S n - 1)%nat with n by lia.
  cbn [seq map fold_right]. ring.
Qed.

(** ** Comparing the loop counter with [maxTries] *)

Lemma Qltb_lt a b : Qltb a b = true <-> (a < b)%Q.
Proof.
  unfold Qltb. rewrite negb_true_iff. split.
  - intros Hle. apply Qnot_le_lt. intros H. apply Qle_bool_iff in H. congruence.
  - intros Hlt. destruct (Qle_bool b a) eqn:Hle; [|reflexivity].
    apply Qle_bool_iff in Hle. exfalso. eapply Qlt_not_le; eassumption.
Qed.

Lemma Qltb_ge a b : Qltb a b = false <-> (b <= a)%Q.
Proof. unfold Qltb. rewrite negb_false_iff. apply Qle_bool_iff. Qed.

(** A whole number is below [q] exactly when it is below the ceiling of [q]. *)
Lemma below_ceiling (c : Z) (q : Q) : (inject_Z c < q)%Q <-> c < Qceiling q.
Proof.
  split.
  - intros Hlt. rewrite Zlt_Qlt. eapply Qlt_le_trans; [exact Hlt | apply Qle_ceiling].
  - intros Hlt. eapply Qle_lt_trans; [|apply Qceiling_lt].
    rewrite <- Zle_Qle. lia.
Qed.

Lemma Qltb_whole c m q : (q == inject_Z m)%Q -> Qltb (inject_Z c) q = (c <? m).
Proof.
  intros Hq. destruct (Z.ltb_spec c m) as [Hlt|Hge].
  - apply Qltb_lt. rewrite Hq, <- Zlt_Qlt. exact Hlt.
  - apply Qltb_ge. rewrite Hq, <- Zle_Qle. exact Hge.
Qed.

Lemma Qeq_bool_whole c m q : (q == inject_Z m)%Q -> Qeq_bool (inject_Z c) q = (c =? m).
Proof.
  intros Hq. destruct (Z.eqb_spec c m) as [->|Hne].
  - apply Qeq_bool_iff. symmetry. exact Hq.
  - apply not_true_is_false. intros Heq. apply Qeq_bool_iff in Heq.
    rewrite Hq in Heq. apply Hne, inject_Z_injective, Heq.
Qed.

Lemma whole_spec q : whole q = true <-> exists n, (q == inject_Z n)%Q.
Proof.
  unfold whole. split.
  - intros Heq. apply Qeq_bool_iff in Heq. exists (Qfloor q). symmetry. exact Heq.
  - intros (n & Hn). apply Qeq_bool_iff.
    rewrite (Qfloor_comp _ _ Hn), Qfloor_Z. symmetry. exact Hn.
Qed.

Lemma not_whole q z : whole q = false -> ~ (q + 1 == inject_Z z)%Q.
Proof.
  intros Hfrac Heq.
  assert (whole q = true) as Hwhole; [|congruence].
  apply whole_spec. exists (z - 1). unfold Z.sub.
  rewrite inject_Z_plus, inject_Z_opp, <- Heq. change (inject_Z 1) with 1%Q. ring.
Qed.

Lemma maxTries_whole options n :
  (default 0%Q (retryCount options) == inject_Z n)%Q ->
  (default 0%Q (retryCount options) + 1 == inject_Z (n + 1))%Q.
Proof. intros Hn. rewrite Hn, inject_Z_plus. reflexivity. Qed.

Lemma maxAttempts_whole options n :
  (default 0%Q (retryCount options) == inject_Z n)%Q -> 0 <= n ->
  maxAttempts options = S (Z.to_nat n).
Proof.
  intros Hn Hpos. unfold maxAttempts.
  rewrite (Qceiling_comp _ _ (maxTries_whole options n Hn)), Qceiling_Z. lia.
Qed.

(** Attempt [k] is within the tries exactly when [k < maxTries]. *)
Lemma within_maxAttempts options k :
  (k < maxAttempts options)%nat
  <-> (inject_Z (Z.of_nat k) < default 0%Q (retryCount options) + 1)%Q.
Proof. unfold maxAttempts. rewrite below_ceiling. lia. Qed.

(** ** The retry loop *)

Lemma Math_round_comp x y : (x == y)%Q -> Math_round x = Math_round y.
Proof. intros H. unfold Math_round. rewrite H. reflexivity. Qed.

Lemma retryTime_nil w options i : retryTime w options i 0 = 0%Q.
Proof. reflexivity. Qed.

Lemma retryTime_step w options i count :
  (retryTime w options i (S count)
   == spent options (target w i) + (1000 + timerLag w i)
      + retryTime w options (S i) count)%Q.
Proof. unfold retryTime, Qsum. cbn [seq map fold_right]. reflexivity. Qed.

(** All the tries of a whole [maxTries] end in the [catch] block. *)
Lemma retryLoop_exhausts w url options startTime maxTries m : forall fuel i s,
  (maxTries == inject_Z (Z.of_nat m))%Q ->
  (i < m)%nat -> (m - i <= fuel)%nat ->
  (forall k, (i <= k < m)%nat -> attemptThrows options (target w k) = true) ->
  exists s' evs,
    retryLoop fuel w url options startTime maxTries (Z.of_nat i) s
      = (Ok {| endpoint := url;
               timestamp := timeOrigin s + Qfloor (clock s');
               latency := Math_round (clock s' - startTime);
               status := 0; success := false |}, s', evs)
    /\ clock_only s s'
    /\ (clock s' == clock s + exhaustionTime w options i (m - i))%Q
    /\ attempts evs = (m - i)%nat
    /\ delays evs = (m - i - 1)%nat.
Proof.
  induction fuel as [|fuel IH]; intros i s Hwhole Hi Hfuel Hall; [lia|].
  cbn [retryLoop]. rewrite (Qltb_whole _ _ _ Hwhole).
  replace (Z.of_nat i <? Z.of_nat m) with true by (symmetry; apply Z.ltb_lt; lia).
  destruct (attempt_throws w url options startTime (Z.of_nat i) s)
    as (e & s1 & Hrun & Hframe & Hclock).
  { rewrite Nat2Z.id. apply Hall. lia. }
  rewrite Nat2Z.id in Hclock.
  rewrite (tryCatch_throw _ _ _ _ _ _ Hrun), (Qeq_bool_whole _ _ _ Hwhole).
  destruct (Z.eqb_spec (Z.of_nat i + 1) (Z.of_nat m)) as [Hlast|Hmore].
  - assert (m - i = 1)%nat as -> by lia.
    exists s1. eexists. run. rewrite (clock_only_timeOrigin _ _ Hframe).
    split; [reflexivity|]. split; [exact Hframe|].
    split; [rewrite Hclock, exhaustionTime_one; reflexivity|].
    split; reflexivity.
  - replace (Z.of_nat i + 1) with (Z.of_nat (S i)) by lia.
    rewrite Nat2Z.id. replace (S i - 1)%nat with i by lia.
    set (s2 := set_clock (clock s1 + (1000 + timerLag w i)) s1).
    destruct (IH (S i) s2) as (s' & evs & Hloop & Hframe' & Hclock' & Hatt & Hdel);
      [exact Hwhole | lia | lia | intros k Hk; apply Hall; lia |].
    exists s', (Fetch url (default GET (method options)) :: Delay 1000 :: evs).
    split.
    + run. fold s2. rewrite Hloop. run.
      change (timeOrigin s2) with (timeOrigin s1).
      rewrite (clock_only_timeOrigin _ _ Hframe). reflexivity.
    + split; [eauto using clock_only_trans, clock_only_set|].
      split.
      * destruct (m - i)%nat as [|[|n]] eqn:Hn; [lia | lia |].
        rewrite exhaustionTime_step. replace (m - S i)%nat with (S n) in Hclock' by lia.
        rewrite Hclock'. subst s2. run. rewrite Hclock. ring.
      * unfold attempts, delays in *. cbn [List.filter isFetch isDelay length].
        rewrite Hatt, Hdel. split; lia.
Qed.

(** The tries before try [i + count] end in the [catch] block, that one
    reaches the [return] of the [try] block. *)
Lemma retryLoop_first_response w url options startTime maxTries :
  forall count fuel i s response,
  (inject_Z (Z.of_nat (i + count)) < maxTries)%Q -> (count < fuel)%nat ->
  (forall k, (i <= k < i + count)%nat -> attemptThrows options (target w k) = true) ->
  settles (target w (i + count)%nat) = Resolved response ->
  attemptThrows options (target w (i + count)%nat) = false ->
  exists r s' evs,
    retryLoop fuel w url options startTime maxTries (Z.of_nat i) s = (Ok r, s', evs)
    /\ endpoint r = url
    /\ timestamp r = timeOrigin s + Qfloor (clock s')
    /\ latency r
       = Math_round (clock s + retryTime w options i count
                     + takes (target w (i + count)%nat) - startTime)
    /\ status r = resp_status response
    /\ success r = attemptVerdict options response
    /\ clock_only s s'
    /\ (clock s' == clock s + retryTime w options i count
                    + spent options (target w (i + count)%nat))%Q
    /\ attempts evs = S count
    /\ delays evs = count.
Proof.
  induction count as [|count IH]; intros fuel i s response Hlt Hfuel Hthrow Hres Hret;
    (destruct fuel as [|fuel]; [lia|]); cbn [retryLoop];
    (replace (Qltb (inject_Z (Z.of_nat i)) maxTries) with true;
     [|symmetry; apply Qltb_lt; eapply Qle_lt_trans; [|exact Hlt];
       rewrite <- Zle_Qle; lia]).
  - rewrite Nat.add_0_r in *.
    destruct (attempt_returns w url options startTime (Z.of_nat i) s response)
      as (s' & Hrun & Hframe & Hclock); rewrite ?Nat2Z.id; try assumption.
    rewrite Nat2Z.id in Hrun, Hclock.
    rewrite (tryCatch_ok _ _ _ _ _ _ Hrun).
    eexists _, s', _. split; [reflexivity|]. cbn [endpoint timestamp latency status success].
    repeat split; try assumption.
    + apply Math_round_comp. rewrite retryTime_nil. ring.
    + rewrite Hclock, retryTime_nil. ring.
  - destruct (attempt_throws w url options startTime (Z.of_nat i) s)
      as (e & s1 & Hrun & Hframe & Hclock).
    { rewrite Nat2Z.id. apply Hthrow. lia. }
    rewrite Nat2Z.id in Hclock.
    rewrite (tryCatch_throw _ _ _ _ _ _ Hrun).
    replace (Qeq_bool (inject_Z (Z.of_nat i + 1)) maxTries) with false.
    2:{ symmetry. apply not_true_is_false. intros Heq. apply Qeq_bool_iff in Heq.
        rewrite <- Heq in Hlt. rewrite <- Zlt_Qlt in Hlt. lia. }
    replace (Z.of_nat i + 1) with (Z.of_nat (S i)) by lia.
    rewrite Nat2Z.id. replace (S i - 1)%nat with i by lia.
    set (s2 := set_clock (clock s1 + (1000 + timerLag w i)) s1).
    replace (i + S count)%nat with (S i + count)%nat in * by lia.
    destruct (IH fuel (S i) s2 response)
      as (r & s' & evs & Hloop & Hurl & Hts & Hlat & Hst & Hsucc & Hframe' & Hclock'
          & Hatt & Hdel);
      [assumption | lia | intros k Hk; apply Hthrow; lia | assumption | assumption |].
    exists r, s', (Fetch url (default GET (method options)) :: Delay 1000 :: evs).
    assert (clock s2 == clock s + spent options (target w i) + (1000 + timerLag w i))%Q
      as Hclock2 by (subst s2; run; rewrite Hclock; reflexivity).
    split; [run; fold s2; rewrite Hloop; reflexivity|].
    split; [exact Hurl|]. split.
    { rewrite Hts. change (timeOrigin s2) with (timeOrigin s1).
      rewrite (clock_only_timeOrigin _ _ Hframe). reflexivity. }
    split.
    { rewrite Hlat. apply Math_round_comp. rewrite retryTime_step, Hclock2. ring. }
    split; [exact Hst|]. split; [exact Hsucc|].
    split; [eauto using clock_only_trans, clock_only_set|].
    split; [rewrite Hclock', retryTime_step, Hclock2; ring|].
    unfold attempts, delays in *. cbn [List.filter isFetch isDelay length].
    rewrite Hatt, Hdel. split; reflexivity.
Qed.

(** All the tries of a [maxTries] that is not a whole number end in the
    [catch] block: [currentTry === maxTries] never holds, every try is
    followed by a delay, and the loop ends by its condition. *)
Lemma retryLoop_falls_through w url options startTime maxTries N : forall fuel i s,
  Qceiling maxTries = Z.of_nat N ->
  (forall z, ~ (maxTries == inject_Z z)%Q) ->
  (i <= N)%nat -> (N - i < fuel)%nat ->
  (forall k, (i <= k < N)%nat -> attemptThrows options (target w k) = true) ->
  exists s' evs,
    retryLoop fuel w url options startTime maxTries (Z.of_nat i) s
      = (Throw UnexpectedEnd, s', evs)
    /\ clock_only s s'
    /\ (clock s' == clock s + retryTime w options i (N - i))%Q
    /\ attempts evs = (N - i)%nat
    /\ delays evs = (N - i)%nat.
Proof.
  induction fuel as [|fuel IH]; intros i s Hceil Hfrac Hi Hfuel Hall; [lia|].
  cbn [retryLoop]. destruct (Nat.eq_dec i N) as [->|Hne].
  - replace (Qltb (inject_Z (Z.of_nat N)) maxTries) with false
      by (symmetry; apply Qltb_ge; rewrite <- Hceil; apply Qle_ceiling).
    exists s, []. rewrite Nat.sub_diag, retryTime_nil.
    split; [reflexivity|]. split; [apply clock_only_refl|].
    split; [ring|]. split; reflexivity.
  - replace (Qltb (inject_Z (Z.of_nat i)) maxTries) with true
      by (symmetry; apply Qltb_lt, below_ceiling; lia).
    destruct (attempt_throws w url options startTime (Z.of_nat i) s)
      as (e & s1 & Hrun & Hframe & Hclock).
    { rewrite Nat2Z.id. apply Hall. lia. }
    rewrite Nat2Z.id in Hclock.
    rewrite (tryCatch_throw _ _ _ _ _ _ Hrun).
    replace (Qeq_bool (inject_Z (Z.of_nat i + 1)) maxTries) with false.
    2:{ symmetry. apply not_true_is_false. intros Heq. apply Qeq_bool_iff in Heq.
        apply (Hfrac (Z.of_nat i + 1)). symmetry. exact Heq. }
    replace (Z.of_nat i + 1) with (Z.of_nat (S i)) by lia.
    rewrite Nat2Z.id. replace (S i - 1)%nat with i by lia.
    set (s2 := set_clock (clock s1 + (1000 + timerLag w i)) s1).
    destruct (IH (S i) s2) as (s' & evs & Hloop & Hframe' & Hclock' & Hatt & Hdel);
      [exact Hceil | exact Hfrac | lia | lia | intros k Hk; apply Hall; lia |].
    exists s', (Fetch url (default GET (method options)) :: Delay 1000 :: evs).
    split; [run; fold s2; rewrite Hloop; reflexivity|].
    split; [eauto using clock_only_trans, clock_only_set|].
    split.
    + replace (N - i)%nat with (S (N - S i)) by lia.
      rewrite retryTime_step, Hclock'. subst s2. run. rewrite Hclock. ring.
    + unfold attempts, delays in *. cbn [List.filter isFetch isDelay length].
      rewrite Hatt, Hdel. split; lia.
Qed.

(** ** The four ways a probe can go *)

(** A probe whose [retryCount + 1] attempts all end in the [catch] block. *)
Lemma performTest_exhausts w url options s n :
  (default 0%Q (retryCount options) == inject_Z n)%Q -> 0 <= n ->
  (forall k, (k <= Z.to_nat n)%nat -> attemptThrows options (target w k) = true) ->
  exists s' evs,
    performTest w url options s
      = (Ok {| endpoint := url;
               timestamp := timeOrigin s + Qfloor (clock s');
               latency := Math_round (clock s' - clock s);
               status := 0; success := false |}, s', evs)
    /\ clock_only s s'
    /\ (clock s' == clock s + exhaustionTime w options 0 (S (Z.to_nat n)))%Q
    /\ attempts evs = S (Z.to_nat n)
    /\ delays evs = Z.to_nat n.
Proof.
  intros Hn Hpos Hall. unfold performTest.
  fold (maxAttempts options). rewrite (maxAttempts_whole options n Hn Hpos).
  destruct (retryLoop_exhausts w url options (clock s)
              (default 0%Q (retryCount options) + 1) (S (Z.to_nat n))
              (S (S (Z.to_nat n))) 0%nat s)
    as (s' & evs & Hloop & Hframe & Hclock & Hatt & Hdel);
    [ rewrite (maxTries_whole options n Hn); replace (n + 1) with (Z.of_nat (S (Z.to_nat n)))
        by lia; reflexivity
    | lia | lia | intros k Hk; apply Hall; lia |].
  change (Z.of_nat 0) with 0 in Hloop.
  replace (S (Z.to_nat n) - 0)%nat with (S (Z.to_nat n)) in * by lia.
  exists s', evs. run. rewrite Hloop.
  repeat split; try assumption. rewrite Hdel. lia.
Qed.

(** A probe whose attempt [k], within the tries, is the first one that
    reaches the [return] of the [try] block. *)
Lemma performTest_first_response_after w url options s k response :
  (inject_Z (Z.of_nat k) < default 0%Q (retryCount options) + 1)%Q ->
  (forall i, (i < k)%nat -> attemptThrows options (target w i) = true) ->
  settles (target w k) = Resolved response ->
  attemptThrows options (target w k) = false ->
  exists r s' evs,
    performTest w url options s = (Ok r, s', evs)
    /\ endpoint r = url
    /\ timestamp r = timeOrigin s + Qfloor (clock s')
    /\ latency r
       = Math_round (clock s + retryTime w options 0 k + takes (target w k) - clock s)
    /\ status r = resp_status response
    /\ success r = attemptVerdict options response
    /\ clock_only s s'
    /\ (clock s' == clock s + retryTime w options 0 k + spent options (target w k))%Q
    /\ attempts evs = S k
    /\ delays evs = k.
Proof.
  intros Hk Hthrow Hres Hret. unfold performTest. fold (maxAttempts options).
  pose proof (proj2 (within_maxAttempts options k) Hk) as Hwithin.
  destruct (retryLoop_first_response w url options (clock s)
              (default 0%Q (retryCount options) + 1) k
              (S (maxAttempts options)) 0%nat s response)
    as (r & s' & evs & Hloop & Hrest);
    [exact Hk | lia | intros i Hi; apply Hthrow; lia | exact Hres | exact Hret |].
  change (Z.of_nat 0) with 0 in Hloop. cbn [Nat.add] in Hrest.
  exists r, s', evs. split; [run; rewrite Hloop; reflexivity | exact Hrest].
Qed.

(** A probe with a fractional [retryCount] above -1 whose attempts all end
    in the [catch] block. *)
Lemma performTest_falls_through w url options s :
  (0 < default 0%Q (retryCount options) + 1)%Q ->
  whole (default 0%Q (retryCount options)) = false ->
  (forall k, (k < maxAttempts options)%nat -> attemptThrows options (target w k) = true) ->
  exists s' evs,
    performTest w url options s = (Throw UnexpectedEnd, s', evs)
    /\ clock_only s s'
    /\ (clock s' == clock s + retryTime w options 0 (maxAttempts options))%Q
    /\ attempts evs = maxAttempts options
    /\ delays evs = maxAttempts options.
Proof.
  intros Hpos Hfrac Hall. unfold performTest. fold (maxAttempts options).
  destruct (retryLoop_falls_through w url options (clock s)
              (default 0%Q (retryCount options) + 1) (maxAttempts options)
              (S (maxAttempts options)) 0%nat s)
    as (s' & evs & Hloop & Hframe & Hclock & Hatt & Hdel);
    [ | intros z; apply not_whole, Hfrac | lia | lia | intros k Hk; apply Hall; lia |].
  { unfold maxAttempts. rewrite Z2Nat.id; [reflexivity|].
    apply Z.lt_le_incl, (below_ceiling 0). exact Hpos. }
  change (Z.of_nat 0) with 0 in Hloop. rewrite Nat.sub_0_r in *.
  exists s', evs. run. rewrite Hloop. repeat split; assumption.
Qed.

(** A probe with [retryCount <= -1]: the loop is not entered. *)
Lemma performTest_no_try w url options s :
  (default 0%Q (retryCount options) + 1 <= 0)%Q ->
  performTest w url options s = (Throw UnexpectedEnd, s, []).
Proof.
  intros Hnone. unfold performTest. run. cbn [retryLoop].
  replace (Qltb (inject_Z 0) (default 0%Q (retryCount options) + 1)) with false
    by (symmetry; apply Qltb_ge; exact Hnone).
  reflexivity.
Qed.

Lemma first_not_throwing (p : nat -> bool) : forall n,
  (forall k, (k <= n)%nat -> p k = true)
  \/ exists k, (k <= n)%nat /\ p k = false /\ forall i, (i < k)%nat -> p i = true.
Proof.
  induction n as [|n [Hall|(k & Hk & Hfalse & Hbefore)]].
  - destruct (p 0%nat) eqn:H0.
    + left. intros k Hk. replace k with 0%nat by lia. exact H0.
    + right. exists 0%nat. split; [lia|]. split; [exact H0|]. intros i Hi. lia.
  - destruct (p (S n)) eqn:HS.
    + left. intros k Hk. destruct (Nat.eq_dec k (S n)) as [->|Hne]; [exact HS|].
      apply Hall. lia.
    + right. exists (S n). split; [lia|]. split; [exact HS|].
      intros i Hi. apply Hall. lia.
  - right. exists k. split; [lia|]. split; assumption.
Qed.

Lemma not_throwing_resolved options a :
  attemptThrows options a = false -> exists response, settles a = Resolved response.
Proof.
  unfold attemptThrows. destruct (settles a) as [|response]; [discriminate|].
  intros _. exists response. reflexivity.
Qed.

(** Every probe goes one of four ways: there is no try; some attempt within
    the tries is the first to get past the [catch] block; all the tries of a
    whole [retryCount] end in it; all the tries of a fractional one do. *)
Lemma probe_cases w options :
  (default 0%Q (retryCount options) + 1 <= 0)%Q
  \/ (exists k,
        (inject_Z (Z.of_nat k) < default 0%Q (retryCount options) + 1)%Q
        /\ attemptThrows options (target w k) = false
        /\ forall i, (i < k)%nat -> attemptThrows options (target w i) = true)
  \/ (exists n,
        (default 0%Q (retryCount options) == inject_Z n)%Q /\ 0 <= n
        /\ forall k, (k <= Z.to_nat n)%nat -> attemptThrows options (target w k) = true)
  \/ ((0 < default 0%Q (retryCount options) + 1)%Q
      /\ whole (default 0%Q (retryCount options)) = false
      /\ forall k, (k < maxAttempts options)%nat ->
                   attemptThrows options (target w k) = true).
Proof.
  destruct (Qlt_le_dec 0 (default 0%Q (retryCount options) + 1)) as [Hpos|Hnone];
    [right | left; exact Hnone].
  assert (0 < maxAttempts options)%nat as Hsome
    by (apply within_maxAttempts; exact Hpos).
  destruct (first_not_throwing (fun k => attemptThrows options (target w k))
              (maxAttempts options - 1))
    as [Hall|(k & Hk & Hret & Hbefore)].
  - right. destruct (whole (default 0%Q (retryCount options))) eqn:Hwhole.
    + left. apply whole_spec in Hwhole as (n & Hn). exists n.
      assert (0 <= n) as Hn0.
      { rewrite Hn in Hpos. change 1%Q with (inject_Z 1) in Hpos.
        rewrite <- inject_Z_plus in Hpos. change 0%Q with (inject_Z 0) in Hpos.
        rewrite <- Zlt_Qlt in Hpos. lia. }
      split; [exact Hn|]. split; [exact Hn0|].
      intros k Hk. apply Hall. rewrite (maxAttempts_whole options n Hn Hn0). lia.
    + right. split; [exact Hpos|]. split; [reflexivity|].
      intros k Hk. apply Hall. lia.
  - left. exists k. split; [apply within_maxAttempts; lia|]. split; assumption.
Qed.

(** A probe with a whole, non-negative [retryCount] returns a result for
    the probed url and changes nothing but the clock. *)
Lemma performTest_result w url options s n :
  (default 0%Q (retryCount options) == inject_Z n)%Q -> 0 <= n ->
  exists r s' evs,
    performTest w url options s = (Ok r, s', evs)
    /\ endpoint r = url
    /\ clock_only s s'.
Proof.
  intros Hn Hpos.
  destruct (first_not_throwing (fun k => attemptThrows options (target w k)) (Z.to_nat n))
    as [Hall|(k & Hk & Hret & Hbefore)].
  - destruct (performTest_exhausts w url options s n Hn Hpos Hall)
      as (s' & evs & Hrun & Hframe & _).
    eexists _, s', evs. split; [exact Hrun|]. split; [reflexivity | exact Hframe].
  - destruct (not_throwing_resolved _ _ Hret) as (response & Hres).
    destruct (performTest_first_response_after w url options s k response)
      as (r & s' & evs & Hrun & Hurl & _ & _ & _ & _ & Hframe & _);
      [ apply within_maxAttempts; rewrite (maxAttempts_whole options n Hn Hpos); lia
      | exact Hbefore | exact Hres | exact Hret |].
    exists r, s', evs. split; [exact Hrun|]. split; assumption.
Qed.

Lemma performTest_returns w url options s n :
  (default 0%Q (retryCount options) == inject_Z n)%Q -> 0 <= n ->
  exists r, outcome (performTest w url options s) = Ok r.
Proof.
  intros Hn Hpos.
  destruct (performTest_result w url options s n Hn Hpos) as (r & s' & evs & Hrun & _).
  exists r. rewrite Hrun. reflexivity.
Qed.

(** A probe that returns a result changes nothing but the clock, and the
    result is for the probed url. *)
Lemma performTest_returned w url options s r :
  outcome (performTest w url options s) = Ok r ->
  endpoint r = url /\ clock_only s (final (performTest w url options s)).
Proof.
  intros Hr.
  destruct (probe_cases w options)
    as [Hnone|[(k & Hk & Hret & Hbefore)|[(n & Hn & Hpos & Hall)|(Hpos & Hfrac & Hall)]]].
  - rewrite (performTest_no_try w url options s Hnone) in Hr. discriminate Hr.
  - destruct (not_throwing_resolved _ _ Hret) as (response & Hres).
    destruct (performTest_first_response_after w url options s k response
                Hk Hbefore Hres Hret)
      as (r' & s' & evs & Hrun & Hurl & _ & _ & _ & _ & Hframe & _).
    rewrite Hrun in *. cbn [outcome final fst snd] in *. injection Hr as <-.
    split; assumption.
  - destruct (performTest_exhausts w url options s n Hn Hpos Hall)
      as (s' & evs & Hrun & Hframe & _).
    rewrite Hrun in *. cbn [outcome final fst snd] in *. injection Hr as <-.
    split; [reflexivity | exact Hframe].
  - destruct (performTest_falls_through w url options s Hpos Hfrac Hall)
      as (s' & evs & Hrun & _).
    rewrite Hrun in Hr. discriminate Hr.
Qed.

(** ** Frame and totality of the asynchronous methods *)

Section Keeps.

Variable R : State -> State -> Prop.
Hypothesis R_refl : forall s, R s s.
Hypothesis R_trans : forall s1 s2 s3, R s1 s2 -> R s2 s3 -> R s1 s3.

Lemma keeps_ret {A} (a : A) : keeps R (ret a).
Proof. intros s. apply R_refl. Qed.

Lemma keeps_throw {A} e : keeps R (@throw A e).
Proof. intros s. apply R_refl. Qed.

Lemma keeps_diverge {A} : keeps R (@diverge A).
Proof. intros s. apply R_refl. Qed.

Lemma keeps_emit e : keeps R (emit e).
Proof. intros s. apply R_refl. Qed.

Lemma keeps_get : keeps R get.
Proof. intros s. apply R_refl. Qed.

Lemma keeps_performance_now : keeps R performance_now.
Proof. intros s. apply R_refl. Qed.

Lemma keeps_new_Date : keeps R new_Date.
Proof. intros s. apply R_refl. Qed.

Lemma keeps_bind {A B} (m : M A) (k : A -> M B) :
  keeps R m -> (forall a, keeps R (k a)) -> keeps R (bind m k).
Proof.
  intros Hm Hk s. specialize (Hm s). unfold bind.
  destruct (m s) as [[[a|e|] s1] ev1]; cbn in *; try exact Hm.
  specialize (Hk a s1). destruct (k a s1) as [[o s2] ev2]; cbn in *.
  eapply R_trans; eassumption.
Qed.

Lemma keeps_tryCatch {A} (m : M A) (h : Error -> M A) :
  keeps R m -> (forall e, keeps R (h e)) -> keeps R (tryCatch m h).
Proof.
  intros Hm Hh s. specialize (Hm s). unfold tryCatch.
  destruct (m s) as [[[a|e|] s1] ev1]; cbn in *; try exact Hm.
  specialize (Hh e s1). destruct (h e s1) as [[o s2] ev2]; cbn in *.
  eapply R_trans; eassumption.
Qed.

End Keeps.

Lemma keeps_weaken {A} (R R' : State -> State -> Prop) (m : M A) :
  (forall s s', R s s' -> R' s s') -> keeps R m -> keeps R' m.
Proof. intros Himp Hm s. apply Himp, Hm. Qed.

Lemma total_ret {A} (a : A) : total (ret a).
Proof. intros s. discriminate. Qed.

Lemma total_throw {A} e : total (@throw A e).
Proof. intros s. discriminate. Qed.

Lemma total_emit e : total (emit e).
Proof. intros s. discriminate. Qed.

Lemma total_get : total get.
Proof. intros s. discriminate. Qed.

Lemma total_put s' : total (put s').
Proof. intros s. discriminate. Qed.

Lemma total_elapse ms : total (elapse ms).
Proof. intros s. discriminate. Qed.

Lemma total_performance_now : total performance_now.
Proof. intros s. discriminate. Qed.

Lemma total_new_Date : total new_Date.
Proof. intros s. discriminate. Qed.

Lemma total_bind {A B} (m : M A) (k : A -> M B) :
  total m -> (forall a, total (k a)) -> total (bind m k).
Proof.
  intros Hm Hk s. specialize (Hm s). unfold bind.
  destruct (m s) as [[[a|e|] s1] ev1]; cbn in *; try discriminate; [|congruence].
  specialize (Hk a s1). destruct (k a s1) as [[o s2] ev2]. exact Hk.
Qed.

Lemma total_tryCatch {A} (m : M A) (h : Error -> M A) :
  total m -> (forall e, total (h e)) -> total (tryCatch m h).
Proof.
  intros Hm Hh s. specialize (Hm s). unfold tryCatch.
  destruct (m s) as [[[a|e|] s1] ev1]; cbn in *; try discriminate; [|congruence].
  specialize (Hh e s1). destruct (h e s1) as [[o s2] ev2]. exact Hh.
Qed.

(** One step of a frame or totality proof: peel the outermost combinator. *)
Ltac frame_step :=
  first
    [ solve [ eauto with probe ]
    | apply keeps_ret | apply keeps_throw | apply keeps_emit | apply keeps_get
    | apply keeps_performance_now | apply keeps_new_Date
    | apply keeps_bind; [ .. | intros ? ]
    | apply keeps_tryCatch; [ .. | intros ? ]
    | apply total_ret | apply total_throw | apply total_emit | apply total_get
    | apply total_put | apply total_elapse
    | apply total_performance_now | apply total_new_Date
    | apply total_bind; [ | intros ? ]
    | apply total_tryCatch; [ | intros ? ] ];
  eauto with probe.

Lemma keeps_elapse ms : keeps clock_only (elapse ms).
Proof. intros s. apply clock_only_set. Qed.

#[local] Hint Resolve keeps_elapse : probe.

Lemma validated_frame options response : keeps clock_only (validated options response).
Proof.
  unfold validated. destruct (validateResponse options) as [validate|];
    repeat frame_step.
  destruct (resp_body response) as [|j]; repeat frame_step.
  destruct (validate j); frame_step.
Qed.

Lemma validated_total options response : total (validated options response).
Proof.
  unfold validated. destruct (validateResponse options) as [validate|];
    repeat frame_step.
  destruct (resp_body response) as [|j]; repeat frame_step.
  destruct (validate j); frame_step.
Qed.

#[local] Hint Resolve validated_frame validated_total : probe.

Lemma attempt_frame w url options startTime currentTry :
  keeps clock_only (attempt w url options startTime currentTry).
Proof.
  unfold attempt. cbv zeta. repeat frame_step.
  destruct (settles _) as [|response]; repeat frame_step.
  destruct (statusAccepted options response); repeat frame_step.
Qed.

Lemma attempt_total w url options startTime currentTry :
  total (attempt w url options startTime currentTry).
Proof.
  unfold attempt. cbv zeta. repeat frame_step.
  destruct (settles _) as [|response]; repeat frame_step.
  destruct (statusAccepted options response); repeat frame_step.
Qed.

#[local] Hint Resolve attempt_frame attempt_total : probe.

Lemma retryLoop_frame w url options startTime maxTries : forall fuel currentTry,
  keeps clock_only (retryLoop fuel w url options startTime maxTries currentTry).
Proof.
  induction fuel as [|fuel IH]; intros currentTry; cbn [retryLoop].
  - apply keeps_diverge. eauto with probe.
  - destruct (Qltb (inject_Z currentTry) maxTries); [|frame_step].
    frame_step. destruct (Qeq_bool (inject_Z (currentTry + 1)) maxTries);
      repeat frame_step.
Qed.

(** The fuel handed out by [performTest] is never used up. *)
Lemma retryLoop_total w url options startTime maxTries : forall fuel currentTry,
  (Z.to_nat (Qceiling maxTries - currentTry) < fuel)%nat ->
  total (retryLoop fuel w url options startTime maxTries currentTry).
Proof.
  induction fuel as [|fuel IH]; intros currentTry Hfuel; [lia|]. cbn [retryLoop].
  destruct (Qltb (inject_Z currentTry) maxTries) eqn:Hlt; [|frame_step].
  apply Qltb_lt, below_ceiling in Hlt.
  frame_step. destruct (Qeq_bool (inject_Z (currentTry + 1)) maxTries);
    repeat frame_step.
  apply IH. lia.
Qed.

Lemma performTest_frame w url options : keeps clock_only (performTest w url options).
Proof. unfold performTest. cbv zeta. repeat frame_step. apply retryLoop_frame. Qed.

Lemma performTest_total w url options : total (performTest w url options).
Proof.
  unfold performTest. cbv zeta. repeat frame_step. apply retryLoop_total.
  rewrite Z.sub_0_r. lia.
Qed.

(** ** Frame of a probe cycle *)

Lemma scheduler_untouched_refl s : scheduler_untouched s s.
Proof. repeat split. Qed.

Lemma scheduler_untouched_trans s1 s2 s3 :
  scheduler_untouched s1 s2 -> scheduler_untouched s2 s3 -> scheduler_untouched s1 s3.
Proof. unfold scheduler_untouched. intuition congruence. Qed.

Lemma clock_only_untouched s s' : clock_only s s' -> scheduler_untouched s s'.
Proof. intros ->. repeat split. Qed.

Lemma eq_untouched (s s' : State) : s = s' -> scheduler_untouched s s'.
Proof. intros ->. apply scheduler_untouched_refl. Qed.

#[local] Hint Resolve scheduler_untouched_refl scheduler_untouched_trans : probe.
#[local] Hint Extern 1 (@eq State _ _) => congruence : probe.

Lemma sendAlert_frame w about alerts webhookUrl :
  keeps eq (sendAlert w about alerts webhookUrl).
Proof. unfold sendAlert. repeat frame_step. destruct (webhook w); frame_step. Qed.

Lemma sendAlert_total w about alerts webhookUrl :
  total (sendAlert w about alerts webhookUrl).
Proof. unfold sendAlert. repeat frame_step. destruct (webhook w); frame_step. Qed.

#[local] Hint Resolve sendAlert_frame sendAlert_total : probe.

Lemma checkAlertThresholds_frame w result : keeps eq (checkAlertThresholds w result).
Proof.
  unfold checkAlertThresholds. repeat frame_step.
  case_match; repeat frame_step.
  - repeat case_match; frame_step.
  - case_if; frame_step.
Qed.

Lemma checkAlertThresholds_total w result : total (checkAlertThresholds w result).
Proof.
  unfold checkAlertThresholds. repeat frame_step.
  case_match; repeat frame_step.
  - repeat case_match; frame_step.
  - case_if; frame_step.
Qed.

Lemma pushMetrics_frame w test : keeps eq (pushMetrics w test).
Proof.
  unfold pushMetrics. repeat frame_step.
  destruct (grafana w) as [|response]; [|destruct (negb _)]; frame_step.
Qed.

Lemma pushMetrics_total w test : total (pushMetrics w test).
Proof.
  unfold pushMetrics. repeat frame_step.
  destruct (grafana w) as [|response]; [|destruct (negb _)]; frame_step.
Qed.

Lemma storeResult_frame w result : keeps scheduler_untouched (storeResult w result).
Proof.
  intros s. unfold storeResult. destruct (diskFull w); run; repeat split.
Qed.

Lemma storeResult_total w result : total (storeResult w result).
Proof. intros s. unfold storeResult. destruct (diskFull w); run; discriminate. Qed.

Lemma performTest_untouched w url options :
  keeps scheduler_untouched (performTest w url options).
Proof.
  eapply keeps_weaken; [apply clock_only_untouched | apply performTest_frame].
Qed.

Lemma pushMetrics_untouched w test : keeps scheduler_untouched (pushMetrics w test).
Proof. eapply keeps_weaken; [apply eq_untouched | apply pushMetrics_frame]. Qed.

Lemma checkAlertThresholds_untouched w result :
  keeps scheduler_untouched (checkAlertThresholds w result).
Proof.
  eapply keeps_weaken; [apply eq_untouched | apply checkAlertThresholds_frame].
Qed.

#[local] Hint Resolve performTest_untouched storeResult_frame pushMetrics_untouched
  checkAlertThresholds_untouched performTest_total storeResult_total
  pushMetrics_total checkAlertThresholds_total : probe.

Lemma testEndpoint_frame w url options :
  keeps scheduler_untouched (testEndpoint w url options).
Proof. unfold testEndpoint. repeat frame_step. Qed.

Lemma testEndpoint_total w url options : total (testEndpoint w url options).
Proof. unfold testEndpoint. repeat frame_step. Qed.

#[local] Hint Resolve testEndpoint_frame testEndpoint_total : probe.

Lemma onInterval_frame w timer : keeps scheduler_untouched (onInterval w timer).
Proof.
  unfold onInterval. repeat frame_step. repeat case_match; repeat frame_step.
Qed.

(** A probe whose first attempt reaches the [return] of the [try] block
    issues one request and nothing else. *)
Lemma performTest_first_response w url options s response :
  (0 < default 0%Q (retryCount options) + 1)%Q ->
  settles (target w 0%nat) = Resolved response ->
  attemptThrows options (target w 0%nat) = false ->
  events (performTest w url options s) = [Fetch url (default GET (method options))].
Proof.
  intros Hpos Hres Hret. unfold performTest.
  destruct (attempt_returns w url options (clock s) 0 s response Hres Hret)
    as (s' & Hrun & _).
  run. cbn [retryLoop].
  replace (Qltb (inject_Z 0) (default 0%Q (retryCount options) + 1)) with true
    by (symmetry; apply Qltb_lt; exact Hpos).
  rewrite (tryCatch_ok _ _ _ _ _ _ Hrun). reflexivity.
Qed.

(** In every probe, a request is followed by another one only when its
    attempt ended in the [catch] block. *)
Lemma retried_only_after_exception w url options s i :
  (S i < attempts (events (performTest w url options s)))%nat ->
  attemptThrows options (target w i) = true.
Proof.
  destruct (probe_cases w options)
    as [Hnone|[(k & Hk & Hret & Hbefore)|[(n & Hn & Hpos & Hall)|(Hpos & Hfrac & Hall)]]].
  - rewrite (performTest_no_try w url options s Hnone). cbn. lia.
  - destruct (not_throwing_resolved _ _ Hret) as (response & Hres).
    destruct (performTest_first_response_after w url options s k response
                Hk Hbefore Hres Hret)
      as (r & s' & evs & Hrun & _ & _ & _ & _ & _ & _ & _ & Hatt & _).
    rewrite Hrun. cbn [events snd]. rewrite Hatt. intros Hi. apply Hbefore. lia.
  - destruct (performTest_exhausts w url options s n Hn Hpos Hall)
      as (s' & evs & Hrun & _ & _ & Hatt & _).
    rewrite Hrun. cbn [events snd]. rewrite Hatt. intros Hi. apply Hall. lia.
  - destruct (performTest_falls_through w url options s Hpos Hfrac Hall)
      as (s' & evs & Hrun & _ & _ & Hatt & _).
    rewrite Hrun. cbn [events snd]. rewrite Hatt. intros Hi. apply Hall. lia.
Qed.

(** A response that the validator rejects with [false] is handled without
    an exception, and its verdict is [false]. *)
Lemma validator_rejection_is_a_verdict options validate response j :
  validateResponse options = Some validate ->
  resp_body response = Decoded j ->
  validate j = Returns false ->
  forall a, settles a = Resolved response ->
  attemptThrows options a = false /\ attemptVerdict options response = false.
Proof.
  intros Hv Hbody Hfalse a Hres. unfold attemptThrows, attemptVerdict.
  rewrite Hres, Hv, Hbody, Hfalse. split; apply andb_false_r.
Qed.

(** ** C1: a validator that returns false *)

(** C1, counterexample. With [retryCount = 2], a validator that always
    returns false and a target that answers 200 with a JSON body,
    [performTest] issues one request and returns at once with the response's
    status: the verdict [success = false] is computed in the [try] block and
    returned from there, the [catch] block is never entered. So the claim
    that three attempts are made is false. *)
Lemma validator_rejection_is_not_retried :
  outcome (performTest healthy "https://a.test" (retrying 2 (Some rejectAll)) boot)
    = Ok {| endpoint := "https://a.test"; timestamp := 1700000000050;
            latency := 50; status := 200; success := false |}
  /\ events (performTest healthy "https://a.test" (retrying 2 (Some rejectAll)) boot)
    = [Fetch "https://a.test" GET]
  /\ ~ validator_rejection_exhausts_retries.
Proof.
  split; [reflexivity|]. split; [reflexivity|].
  intros Hclaim.
  specialize (Hclaim healthy "https://a.test" (retrying 2 (Some rejectAll)) rejectAll 2 boot
                eq_refl (fun _ => eq_refl) eq_refl ltac:(lia)
                (fun _ => ex_intro _ (responding 200)
                            (ex_intro _ "{}" (conj eq_refl eq_refl)))).
  discriminate Hclaim.
Qed.

(** C1, as the code has it. A response whose decoded body the validator
    rejects with [false] ends the probe, whatever [retryCount] is: when the
    attempts before attempt [k] all end in an exception and attempt [k]
    (within the [retryCount + 1] tries) gets that response, [performTest]
    returns its status with [success = false] after [k + 1] requests and [k]
    retry delays. When it is the first request that completes, that is
    exactly one request and no delay. And in every probe a request is
    followed by another one only when its attempt ended in an exception: a
    verdict of [false] is never retried. *)
Theorem validator_rejection_returns_first_response w url options validate s :
  validateResponse options = Some validate ->
  (forall k response j,
     (inject_Z (Z.of_nat k) < default 0%Q (retryCount options) + 1)%Q ->
     (forall i, (i < k)%nat -> attemptThrows options (target w i) = true) ->
     settles (target w k) = Resolved response ->
     resp_body response = Decoded j ->
     validate j = Returns false ->
     exists r,
       outcome (performTest w url options s) = Ok r
       /\ success r = false
       /\ status r = resp_status response
       /\ attempts (events (performTest w url options s)) = S k
       /\ delays (events (performTest w url options s)) = k)
  /\ (forall response j,
        (0 < default 0%Q (retryCount options) + 1)%Q ->
        settles (target w 0%nat) = Resolved response ->
        resp_body response = Decoded j ->
        validate j = Returns false ->
        events (performTest w url options s) = [Fetch url (default GET (method options))])
  /\ (forall i,
        (S i < attempts (events (performTest w url options s)))%nat ->
        attemptThrows options (target w i) = true).
Proof.
  intros Hv. split; [|split].
  - intros k response j Hk Hbefore Hres Hbody Hfalse.
    destruct (validator_rejection_is_a_verdict options validate response j
                Hv Hbody Hfalse (target w k) Hres) as [Hret Hverdict].
    destruct (performTest_first_response_after w url options s k response
                Hk Hbefore Hres Hret)
      as (r & s' & evs & Hrun & _ & _ & _ & Hst & Hsucc & _ & _ & Hatt & Hdel).
    rewrite Hrun. exists r. cbn [outcome events fst snd].
    split; [reflexivity|]. split; [congruence|]. repeat split; assumption.
  - intros response j Hn Hres Hbody Hfalse.
    destruct (validator_rejection_is_a_verdict options validate response j
                Hv Hbody Hfalse (target w 0%nat) Hres) as [Hret _].
    apply (performTest_first_response w url options s response); assumption.
  - intros i. apply retried_only_after_exception.
Qed.

Lemma validator_rejection_returns_first_response_witness :
  (exists r,
     outcome (performTest recovering "https://a.test" (retrying 3 (Some rejectAll)) boot)
       = Ok r
     /\ success r = false
     /\ status r = 200
     /\ attempts (events (performTest recovering "https://a.test"
                            (retrying 3 (Some rejectAll)) boot)) = 3%nat
     /\ delays (events (performTest recovering "https://a.test"
                          (retrying 3 (Some rejectAll)) boot)) = 2%nat)
  /\ events (performTest healthy "https://a.test" (retrying 3 (Some rejectAll)) boot)
     = [Fetch "https://a.test" GET].
Proof.
  split.
  - apply (proj1 (validator_rejection_returns_first_response recovering "https://a.test"
                    (retrying 3 (Some rejectAll)) rejectAll boot eq_refl)
             2%nat (responding 200) "{}");
      [ reflexivity
      | intros [|[|i]] Hi; [reflexivity | reflexivity | lia]
      | reflexivity | reflexivity | reflexivity ].
  - apply (proj1 (proj2 (validator_rejection_returns_first_response healthy
                    "https://a.test" (retrying 3 (Some rejectAll)) rejectAll boot eq_refl))
             (responding 200) "{}");
      [ reflexivity | reflexivity | reflexivity | reflexivity ].
Defined.

(** ** C4: a target whose every attempt fails *)

(** C4, counterexample. A target that answers every request with status
    500 fails every attempt, yet with [retryCount = 2] the probe makes one
    attempt and reports [status = 500]: a completed response is returned
    from the [try] block, only an exception reaches the retry logic. *)
Lemma failed_status_is_not_retried :
  outcome (performTest erroring "https://a.test" (retrying 2 None) boot)
    = Ok {| endpoint := "https://a.test"; timestamp := 1700000000050;
            latency := 50; status := 500; success := false |}
  /\ events (performTest erroring "https://a.test" (retrying 2 None) boot)
    = [Fetch "https://a.test" GET]
  /\ ~ failing_target_exhausts_retries.
Proof.
  split; [reflexivity|]. split; [reflexivity|].
  intros Hclaim.
  destruct (Hclaim erroring "https://a.test" (retrying 2 None) 2 boot
              ltac:(reflexivity) ltac:(lia) (fun _ => eq_refl))
    as (r & Hr & _ & Hstatus & _).
  inversion Hr; subst r. discriminate Hstatus.
Qed.

(** C4, as the code has it. For every whole [retryCount = n >= 0], when
    each of the attempts 0..n ends in an exception (the request is rejected
    or aborted by the timeout, the body of an accepted response does not
    decode, or the validator raises), the probe makes exactly [n + 1]
    attempts and returns [success = false], [status = 0]; with
    [retryCount = 0] that is exactly one attempt. An attempt that fails by a
    status mismatch or by a validator that returns false is not retried:
    when the attempts before it ended in an exception, the probe returns at
    once with [success = false] and the status of that response. *)
Theorem throwing_target_exhausts_retries w url options n s :
  (default 0%Q (retryCount options) == inject_Z n)%Q -> 0 <= n ->
  ((forall k, (k <= Z.to_nat n)%nat -> attemptThrows options (target w k) = true) ->
   exists r,
     outcome (performTest w url options s) = Ok r
     /\ success r = false
     /\ status r = 0
     /\ attempts (events (performTest w url options s)) = Z.to_nat (n + 1)
     /\ (n = 0 -> attempts (events (performTest w url options s)) = 1%nat))
  /\ (forall k response,
        (k <= Z.to_nat n)%nat ->
        (forall i, (i < k)%nat -> attemptThrows options (target w i) = true) ->
        settles (target w k) = Resolved response ->
        statusAccepted options response = false
        \/ (exists validate j,
              validateResponse options = Some validate
              /\ resp_body response = Decoded j
              /\ validate j = Returns false) ->
        exists r,
          outcome (performTest w url options s) = Ok r
          /\ success r = false
          /\ status r = resp_status response
          /\ attempts (events (performTest w url options s)) = S k
          /\ delays (events (performTest w url options s)) = k).
Proof.
  intros Hn Hpos. split.
  - intros Hall.
    destruct (performTest_exhausts w url options s n Hn Hpos Hall)
      as (s' & evs & Hrun & _ & _ & Hatt & _).
    rewrite Hrun. eexists. split; [reflexivity|].
    cbn [outcome events fst snd success status].
    repeat split.
    + rewrite Hatt. lia.
    + intros ->. rewrite Hatt. reflexivity.
  - intros k response Hk Hbefore Hres Hfails.
    assert (attemptThrows options (target w k) = false
            /\ attemptVerdict options response = false) as [Hret Hverdict].
    { destruct Hfails as [Hstatus|(validate & j & Hv & Hbody & Hfalse)].
      - unfold attemptThrows, attemptVerdict. rewrite Hres, Hstatus. split; reflexivity.
      - apply (validator_rejection_is_a_verdict options validate response j
                 Hv Hbody Hfalse (target w k) Hres). }
    destruct (performTest_first_response_after w url options s k response)
      as (r & s' & evs & Hrun & _ & _ & _ & Hst & Hsucc & _ & _ & Hatt & Hdel);
      [ apply within_maxAttempts; rewrite (maxAttempts_whole options n Hn Hpos); lia
      | exact Hbefore | exact Hres | exact Hret |].
    rewrite Hrun. exists r. cbn [outcome events fst snd].
    split; [reflexivity|]. split; [congruence|]. repeat split; assumption.
Qed.

Lemma throwing_target_exhausts_retries_witness :
  (exists r,
     outcome (performTest unreachable "https://a.test" (retrying 2 None) boot) = Ok r
     /\ success r = false
     /\ status r = 0
     /\ attempts (events (performTest unreachable "https://a.test" (retrying 2 None) boot))
        = Z.to_nat (2 + 1)
     /\ (2 = 0 ->
         attempts (events (performTest unreachable "https://a.test" (retrying 2 None) boot))
         = 1%nat))
  /\ (exists r,
        outcome (performTest erroring "https://a.test" (retrying 2 None) boot) = Ok r
        /\ success r = false
        /\ status r = 500
        /\ attempts (events (performTest erroring "https://a.test" (retrying 2 None) boot))
           = 1%nat
        /\ delays (events (performTest erroring "https://a.test" (retrying 2 None) boot))
           = 0%nat).
Proof.
  split.
  - apply (proj1 (throwing_target_exhausts_retries unreachable "https://a.test"
                    (retrying 2 None) 2 boot ltac:(reflexivity) ltac:(lia))).
    intros k _. reflexivity.
  - apply (proj2 (throwing_target_exhausts_retries erroring "https://a.test"
                    (retrying 2 None) 2 boot ltac:(reflexivity) ltac:(lia))
             0%nat (responding 500));
      [ lia | intros i Hi; lia | reflexivity | left; reflexivity ].
Defined.

(** ** C7: the latency of an exhausted probe *)

Lemma Math_round_le x y : (x <= y)%Q -> Math_round x <= Math_round y.
Proof.
  intros H. unfold Math_round. apply Qfloor_resp_le.
  apply Qplus_le_compat; [exact H | apply Qle_refl].
Qed.

Lemma Math_round_Z z : Math_round (inject_Z z) = z.
Proof.
  unfold Math_round, Qfloor, Qplus, inject_Z. cbn [Qnum Qden].
  rewrite Z.mul_1_l. change (Z.pos (1 * 2)) with 2. change (Z.pos 2) with 2.
  symmetry. apply (Z.div_unique _ _ _ 1); lia.
Qed.

Lemma Qsum_nonneg (xs : list Q) : Forall (fun x => 0 <= x)%Q xs -> (0 <= Qsum xs)%Q.
Proof.
  induction 1 as [|x xs Hx _ IH]; cbn; [apply Qle_refl|].
  change 0%Q with (0 + 0)%Q at 1. apply Qplus_le_compat; assumption.
Qed.

Lemma Qsum_delays w : forall n from,
  (forall k, 0 <= timerLag w k)%Q ->
  (inject_Z (1000 * Z.of_nat n)
   <= Qsum (map (fun k => 1000 + timerLag w k) (seq from n)))%Q.
Proof.
  induction n as [|n IH]; intros from Hlag; [cbn; apply Qle_refl|].
  replace (1000 * Z.of_nat (S n)) with (1000 + 1000 * Z.of_nat n) by lia.
  rewrite inject_Z_plus. cbn [seq map Qsum fold_right].
  apply Qplus_le_compat; [|apply IH, Hlag].
  rewrite <- (Qplus_0_r (inject_Z 1000)).
  apply Qplus_le_compat; [apply Qle_refl | apply Hlag].
Qed.

Lemma exhaustionTime_lower_bound w options n :
  (forall k, 0 <= spent options (target w k))%Q ->
  (forall k, 0 <= timerLag w k)%Q ->
  (inject_Z (1000 * Z.of_nat n) <= exhaustionTime w options 0 (S n))%Q.
Proof.
  intros Hspent Hlag. unfold exhaustionTime.
  replace (S n - 1)%nat with n by lia.
  rewrite <- (Qplus_0_l (inject_Z _)).
  apply Qplus_le_compat; [|apply Qsum_delays, Hlag].
  apply Qsum_nonneg, List.Forall_forall. intros x Hx.
  apply in_map_iff in Hx as (k & <- & _). apply Hspent.
Qed.

(** C7. When a probe with [retryCount = n] (exhaustion needs a whole
    number of tries) exhausts its attempts, the
    reported latency is the rounded time between the call of [performTest]
    and its verdict. That span is the sum of the durations of all [n + 1]
    attempts and of the [n] delays of 1000 ms (each with the lag of its
    timer) between them, so when no duration is negative the latency is at
    least [1000 * n] whatever the last attempt took. *)
Theorem exhausted_latency_spans_all_attempts w url options n s :
  (default 0%Q (retryCount options) == inject_Z n)%Q -> 0 <= n ->
  (forall k, (k <= Z.to_nat n)%nat -> attemptThrows options (target w k) = true) ->
  exists r,
    outcome (performTest w url options s) = Ok r
    /\ latency r = Math_round (clock (final (performTest w url options s)) - clock s)
    /\ latency r
       = Math_round
           (Qsum (map (fun k => spent options (target w k)) (seq 0 (S (Z.to_nat n))))
            + Qsum (map (fun k => 1000 + timerLag w k)%Q (seq 0 (Z.to_nat n))))
    /\ ((forall k, 0 <= spent options (target w k))%Q ->
        (forall k, 0 <= timerLag w k)%Q ->
        1000 * n <= latency r).
Proof.
  intros Hn Hpos Hall.
  destruct (performTest_exhausts w url options s n Hn Hpos Hall)
    as (s' & evs & Hrun & _ & Hclock & _ & _).
  rewrite Hrun. eexists. split; [reflexivity|]. cbn [latency final fst snd].
  assert (clock s' - clock s == exhaustionTime w options 0 (S (Z.to_nat n)))%Q as Hspan.
  { rewrite Hclock. ring. }
  split; [reflexivity|]. split.
  - unfold Math_round. rewrite Hspan. unfold exhaustionTime.
    replace (S (Z.to_nat n) - 1)%nat with (Z.to_nat n) by lia. reflexivity.
  - intros Hspent Hlag.
    rewrite <- (Math_round_Z (1000 * n)). apply Math_round_le.
    rewrite Hspan. replace n with (Z.of_nat (Z.to_nat n)) at 1 by lia.
    apply exhaustionTime_lower_bound; assumption.
Qed.

Lemma exhausted_latency_spans_all_attempts_witness :
  exists r,
    outcome (performTest unreachable "https://a.test" (retrying 2 None) boot) = Ok r
    /\ latency r
       = Math_round (clock (final (performTest unreachable "https://a.test"
                                     (retrying 2 None) boot)) - clock boot)
    /\ latency r
       = Math_round
           (Qsum (map (fun k => spent (retrying 2 None) (target unreachable k))
                      (seq 0 (S (Z.to_nat 2))))
            + Qsum (map (fun k => 1000 + timerLag unreachable k)%Q (seq 0 (Z.to_nat 2))))
    /\ ((forall k, 0 <= spent (retrying 2 None) (target unreachable k))%Q ->
        (forall k, 0 <= timerLag unreachable k)%Q ->
        1000 * 2 <= latency r).
Proof.
  apply (exhausted_latency_spans_all_attempts unreachable "https://a.test"
           (retrying 2 None) 2 boot);
    [reflexivity | lia | intros k _; reflexivity].
Defined.

(** ** C5: starting a monitored endpoint again *)

(** C5. When [url] already has a session, [startMonitoring] throws
    "Already monitoring" before it does anything else: no event happens and
    the state is the one before the call, so the session table, the armed
    timer of the first session and the options it runs with are untouched. *)
Theorem startMonitoring_twice_fails DEFAULT_INTERVAL w url options s timer :
  activeTests s !! url = Some timer ->
  startMonitoring DEFAULT_INTERVAL w url options s
    = (Throw (AlreadyMonitoring url), s, []).
Proof. intros Hactive. unfold startMonitoring. run. rewrite Hactive. reflexivity. Qed.

Lemma startMonitoring_twice_fails_witness :
  startMonitoring 30000 healthy "https://a.test" (Some (inr (retrying 5 None)))
    (final (startMonitoring 30000 healthy "https://a.test" (Some (inl 1000%Q)) boot))
  = (Throw (AlreadyMonitoring "https://a.test"),
     final (startMonitoring 30000 healthy "https://a.test" (Some (inl 1000%Q)) boot),
     []).
Proof.
  apply (startMonitoring_twice_fails 30000 healthy "https://a.test"
           (Some (inr (retrying 5 None)))
           (final (startMonitoring 30000 healthy "https://a.test" (Some (inl 1000%Q)) boot))
           0%nat).
  vm_compute. reflexivity.
Defined.

(** ** C6: the order of the steps of [startMonitoring] *)

(** C6, counterexample. Starting a healthy endpoint on a fresh engine arms
    the timer first; the request, the insert and the push of the initial
    cycle follow. *)
Lemma timer_is_armed_before_first_probe :
  events (startMonitoring 30000 healthy "https://a.test" None boot)
    = [SetInterval 0%nat 30000;
       Fetch "https://a.test" GET;
       Insert {| endpoint := "https://a.test"; timestamp := 1700000000050;
                 latency := 50; status := 200; success := true |};
       Push {| endpoint := "https://a.test"; timestamp := 1700000000050;
               latency := 50; status := 200; success := true |}]
  /\ ~ probe_precedes_timer.
Proof.
  split; [reflexivity|].
  intros Hclaim.
  destruct (Hclaim 30000%Q healthy "https://a.test" None boot _ eq_refl)
    as (cycle & timer & Hevents & _).
  change (events (startMonitoring 30000 healthy "https://a.test" None boot))
    with ([SetInterval 0%nat 30000; Fetch "https://a.test" GET;
           Insert {| endpoint := "https://a.test"; timestamp := 1700000000050;
                     latency := 50; status := 200; success := true |}]
          ++ [Push {| endpoint := "https://a.test"; timestamp := 1700000000050;
                      latency := 50; status := 200; success := true |}])
    in Hevents.
  apply app_inj_tail in Hevents as [_ Hlast]. discriminate Hlast.
Qed.

(** C6, as the code has it. A [startMonitoring] call for an endpoint
    without a session first arms the repeating timer at
    [options.interval ?? DEFAULT_INTERVAL] and registers the session, then
    runs one probe cycle in that state and hands its outcome to the caller.
    The session is registered and its timer armed when the call returns,
    also when the initial cycle fails. *)
Theorem startMonitoring_arms_then_probes DEFAULT_INTERVAL w url options s :
  activeTests s !! url = None ->
  events (startMonitoring DEFAULT_INTERVAL w url options s)
    = SetInterval (nextTimer s)
        (default DEFAULT_INTERVAL (interval (normalize DEFAULT_INTERVAL options)))
      :: events (testEndpoint w url (normalize DEFAULT_INTERVAL options)
                   (armed url (normalize DEFAULT_INTERVAL options) s))
  /\ outcome (startMonitoring DEFAULT_INTERVAL w url options s)
     = outcome (testEndpoint w url (normalize DEFAULT_INTERVAL options)
                  (armed url (normalize DEFAULT_INTERVAL options) s))
  /\ activeTests (final (startMonitoring DEFAULT_INTERVAL w url options s)) !! url
     = Some (nextTimer s)
  /\ intervals (final (startMonitoring DEFAULT_INTERVAL w url options s)) !! nextTimer s
     = Some (url, normalize DEFAULT_INTERVAL options).
Proof.
  intros Hfree.
  pose proof (testEndpoint_frame w url (normalize DEFAULT_INTERVAL options)
                (armed url (normalize DEFAULT_INTERVAL options) s))
    as (Hsessions & Htimers & _).
  unfold startMonitoring, setInterval. run. rewrite Hfree. run.
  change (set_sessions _ _ _ (set_sessions _ _ _ s))
    with (armed url (normalize DEFAULT_INTERVAL options) s).
  destruct (testEndpoint w url (normalize DEFAULT_INTERVAL options)
              (armed url (normalize DEFAULT_INTERVAL options) s))
    as [[o s'] evs].
  unfold final in *. cbn [fst snd] in *.
  split; [reflexivity|]. split; [reflexivity|].
  rewrite Hsessions, Htimers. unfold armed. run.
  split; apply lookup_insert_eq.
Qed.

Lemma startMonitoring_arms_then_probes_witness :
  events (startMonitoring 30000 grafanaDown "https://a.test" None boot)
    = SetInterval (nextTimer boot)
        (default 30000%Q (interval (normalize 30000 None)))
      :: events (testEndpoint grafanaDown "https://a.test" (normalize 30000 None)
                   (armed "https://a.test" (normalize 30000 None) boot))
  /\ outcome (startMonitoring 30000 grafanaDown "https://a.test" None boot)
     = outcome (testEndpoint grafanaDown "https://a.test" (normalize 30000 None)
                  (armed "https://a.test" (normalize 30000 None) boot))
  /\ activeTests (final (startMonitoring 30000 grafanaDown "https://a.test" None boot))
       !! "https://a.test"
     = Some (nextTimer boot)
  /\ intervals (final (startMonitoring 30000 grafanaDown "https://a.test" None boot))
       !! nextTimer boot
     = Some ("https://a.test", normalize 30000 None).
Proof.
  apply (startMonitoring_arms_then_probes 30000 grafanaDown "https://a.test" None boot).
  reflexivity.
Defined.

(** ** C9: stopping *)

Lemma stopMonitoring_idle url s :
  activeTests s !! url = None -> stopMonitoring url s = (Ok tt, s, []).
Proof. intros Hnone. unfold stopMonitoring. run. rewrite Hnone. reflexivity. Qed.

Lemma stopMonitoring_active url s timer :
  activeTests s !! url = Some timer ->
  stopMonitoring url s
    = (Ok tt,
       set_sessions (delete url (activeTests s)) (delete timer (intervals s))
                    (nextTimer s) s,
       [ClearInterval timer]).
Proof.
  intros Hsome. unfold stopMonitoring, clearInterval. run. rewrite Hsome. reflexivity.
Qed.

(** C9. [stopMonitoring] on an endpoint without a session does nothing and
    raises nothing, so calling it again right after any [stopMonitoring] is
    a no-op as well; on an endpoint with a session it clears that session's
    timer and deletes that entry of the session table, and nothing else
    changes. *)
Theorem stopMonitoring_idempotent url s :
  (activeTests s !! url = None -> stopMonitoring url s = (Ok tt, s, []))
  /\ stopMonitoring url (final (stopMonitoring url s))
     = (Ok tt, final (stopMonitoring url s), [])
  /\ (forall timer, activeTests s !! url = Some timer ->
      stopMonitoring url s
        = (Ok tt,
           set_sessions (delete url (activeTests s)) (delete timer (intervals s))
                        (nextTimer s) s,
           [ClearInterval timer])
      /\ forall other, other <> url ->
          activeTests (final (stopMonitoring url s)) !! other = activeTests s !! other).
Proof.
  split; [apply stopMonitoring_idle|]. split.
  - destruct (activeTests s !! url) as [timer|] eqn:Hlookup.
    + rewrite (stopMonitoring_active _ _ _ Hlookup). unfold final; cbn [fst snd].
      apply stopMonitoring_idle. run. apply lookup_delete_eq.
    + rewrite (stopMonitoring_idle _ _ Hlookup). unfold final; cbn [fst snd].
      apply stopMonitoring_idle, Hlookup.
  - intros timer Hsome. split; [apply stopMonitoring_active, Hsome|].
    intros other Hother. rewrite (stopMonitoring_active _ _ _ Hsome).
    unfold final; cbn [fst snd]. run. apply lookup_delete_ne. congruence.
Qed.

Lemma stopMonitoring_idempotent_witness :
  stopMonitoring "https://a.test" boot = (Ok tt, boot, [])
  /\ stopMonitoring "https://a.test"
       (final (startMonitoring 30000 healthy "https://a.test" None boot))
     = (Ok tt,
        set_sessions
          (delete "https://a.test"
             (activeTests (final (startMonitoring 30000 healthy "https://a.test" None boot))))
          (delete 0%nat
             (intervals (final (startMonitoring 30000 healthy "https://a.test" None boot))))
          (nextTimer (final (startMonitoring 30000 healthy "https://a.test" None boot)))
          (final (startMonitoring 30000 healthy "https://a.test" None boot)),
        [ClearInterval 0%nat]).
Proof.
  split.
  - apply (proj1 (stopMonitoring_idempotent "https://a.test" boot)). reflexivity.
  - apply (proj2 (proj2 (stopMonitoring_idempotent "https://a.test"
             (final (startMonitoring 30000 healthy "https://a.test" None boot))))).
    vm_compute. reflexivity.
Defined.

(** ** The alert evaluator *)

Lemma checkAlertThresholds_no_threshold w result s :
  alertThresholds s !! endpoint result = None ->
  checkAlertThresholds w result s = (Ok tt, s, []).
Proof. intros Hnone. unfold checkAlertThresholds. run. rewrite Hnone. reflexivity. Qed.

(** The evaluation, unless it calls [toFixed] on a [null] average. *)
Lemma checkAlertThresholds_events w result s threshold :
  alertThresholds s !! endpoint result = Some threshold ->
  (latencyBreach threshold
     (recent (latency_tests s) (endpoint result)
        (inject_Z (timestamp result) - windowSize threshold)) = true ->
   avg_latency
     (recent (latency_tests s) (endpoint result)
        (inject_Z (timestamp result) - windowSize threshold)) <> None) ->
  checkAlertThresholds w result s
    = (Ok tt, s,
       Select (endpoint result) (inject_Z (timestamp result) - windowSize threshold)
       :: notification w threshold (endpoint result)
            (breaches threshold
               (recent (latency_tests s) (endpoint result)
                  (inject_Z (timestamp result) - windowSize threshold)))).
Proof.
  intros Hsome Havg. unfold checkAlertThresholds, breaches, notification, sendAlert.
  run. rewrite Hsome. run.
  set (recentTests := recent _ _ _) in *.
  destruct (latencyBreach threshold recentTests).
  - destruct (avg_latency recentTests) as [avg|]; [|exfalso; apply Havg; reflexivity].
    run. cbn [ToNumber default].
    destruct (successRateBreach threshold recentTests); cbn [app length Nat.eqb negb andb];
      (destruct (truthyString (notificationUrl threshold));
       [destruct (webhook w)|]; reflexivity).
  - run.
    destruct (successRateBreach threshold recentTests); cbn [app length Nat.eqb negb andb];
      [destruct (truthyString (notificationUrl threshold));
       [destruct (webhook w)|]|]; reflexivity.
Qed.

(** A query that matches no row yields [NULL] for both aggregates. *)
Lemma recent_empty table url windowStart :
  List.filter (in_window url windowStart) table = [] ->
  recent table url windowStart = {| avg_latency := None; success_rate := None |}.
Proof. intros Hempty. unfold recent. rewrite Hempty. reflexivity. Qed.

Lemma truthyQ_true m : ~ (m == 0)%Q -> truthyQ (Some m) = true.
Proof.
  intros Hne. cbn. destruct (Qeq_bool m 0) eqn:Heq; [|reflexivity].
  apply Qeq_bool_iff in Heq. contradiction.
Qed.

Lemma truthyQ_zero m : (m == 0)%Q -> truthyQ (Some m) = false.
Proof. intros Hz. cbn. apply Qeq_bool_iff in Hz. rewrite Hz. reflexivity. Qed.

Lemma AVG_cons x xs :
  AVG (x :: xs) = Some (Qsum (x :: xs) / inject_Z (Z.of_nat (length (x :: xs))))%Q.
Proof. reflexivity. Qed.

(** The average of zeros and ones is not negative. *)
Lemma AVG_nonneg xs avg :
  Forall (fun x => 0 <= x)%Q xs -> AVG xs = Some avg -> (0 <= avg)%Q.
Proof.
  intros Hxs. destruct xs as [|x xs]; [discriminate|].
  rewrite AVG_cons. intros [= <-].
  apply Qle_shift_div_l.
  - change 0%Q with (inject_Z 0). rewrite <- Zlt_Qlt. cbn [length]. lia.
  - rewrite Qmult_0_l. apply (Qsum_nonneg (x :: xs)), Hxs.
Qed.

Lemma recent_nonempty table url windowStart :
  List.filter (in_window url windowStart) table <> [] ->
  exists avg rate,
    avg_latency (recent table url windowStart) = Some avg
    /\ success_rate (recent table url windowStart) = Some rate
    /\ (0 <= rate)%Q.
Proof.
  intros Hrows. unfold recent.
  destruct (List.filter (in_window url windowStart) table) as [|row rows];
    [contradiction|].
  cbn [avg_latency success_rate map]. rewrite !AVG_cons.
  eexists _, _. split; [reflexivity|]. split; [reflexivity|].
  eapply AVG_nonneg; [|apply AVG_cons].
  constructor; [destruct (success row); discriminate|].
  apply List.Forall_forall. intros x Hx.
  apply in_map_iff in Hx as (r & <- & _). destruct (success r); discriminate.
Qed.

(** ** C8: the boundaries of the breach conditions *)

(** With a window size that is not negative, the window of a result that
    has just been stored holds that result at least. *)
Lemma stored_result_in_window result threshold table :
  (0 <= windowSize threshold)%Q ->
  List.filter (in_window (endpoint result)
                 (inject_Z (timestamp result) - windowSize threshold))
              (insert_or_replace result table) <> [].
Proof.
  intros Hsize. unfold insert_or_replace. cbn [List.filter].
  assert (in_window (endpoint result)
            (inject_Z (timestamp result) - windowSize threshold) result = true) as ->;
    [|discriminate].
  unfold in_window. rewrite String.eqb_refl. cbn [andb]. apply Qle_bool_iff.
  rewrite <- (Qplus_0_r (inject_Z (timestamp result))) at 2.
  unfold Qminus. apply Qplus_le_compat; [apply Qle_refl|].
  apply (Qopp_le_compat 0). exact Hsize.
Qed.

Lemma successRateBreach_iff threshold recentTests m :
  minSuccessRate threshold = Some m ->
  (0 <= ToNumber (success_rate recentTests))%Q ->
  successRateBreach threshold recentTests = true
  <-> (ToNumber (success_rate recentTests) < m)%Q.
Proof.
  intros Hm Hrate. unfold successRateBreach. rewrite Hm. cbn [default].
  rewrite andb_true_iff, Qltb_lt. split; [tauto|].
  intros Hlt. split; [|exact Hlt]. apply truthyQ_true. intros Hz.
  rewrite Hz in Hlt. eapply Qlt_not_le; eassumption.
Qed.

Lemma latencyBreach_iff threshold recentTests m :
  maxLatency threshold = Some m -> ~ (m == 0)%Q ->
  latencyBreach threshold recentTests = true
  <-> (m < ToNumber (avg_latency recentTests))%Q.
Proof.
  intros Hm Hnz. unfold latencyBreach. rewrite Hm. cbn [default].
  rewrite andb_true_iff, Qltb_lt, (truthyQ_true m Hnz). tauto.
Qed.

Lemma latencyBreach_exact threshold recentTests m :
  maxLatency threshold = Some m ->
  latencyBreach threshold recentTests = true
  <-> ~ (m == 0)%Q /\ (m < ToNumber (avg_latency recentTests))%Q.
Proof.
  intros Hm. split.
  - intros Hbreach. assert (~ (m == 0)%Q) as Hnz.
    { intros Hz. unfold latencyBreach in Hbreach.
      rewrite Hm, (truthyQ_zero m Hz) in Hbreach. discriminate Hbreach. }
    split; [exact Hnz|]. apply (latencyBreach_iff threshold recentTests m Hm Hnz), Hbreach.
  - intros [Hnz Hlt]. apply (latencyBreach_iff threshold recentTests m Hm Hnz), Hlt.
Qed.

(** With a notification url, the alerts that are sent are the alerts that
    were collected. *)
Lemma alertsSent_notification w threshold url windowStart about alerts :
  truthyString (notificationUrl threshold) = true ->
  alertsSent (Select url windowStart :: notification w threshold about alerts) = alerts.
Proof.
  intros Hurl. unfold notification. rewrite Hurl, andb_true_r.
  destruct alerts as [|alert alerts]; [reflexivity|].
  cbn [length Nat.eqb negb alertsSent flat_map app].
  destruct (webhook w); cbn [flat_map app]; rewrite ?app_nil_r; reflexivity.
Qed.

Lemma In_breaches_low threshold recentTests rate m :
  success_rate recentTests = Some rate -> minSuccessRate threshold = Some m ->
  In (LowSuccessRate rate m) (breaches threshold recentTests)
  <-> successRateBreach threshold recentTests = true.
Proof.
  intros Hrate Hm. unfold breaches.
  rewrite Hrate, Hm. cbn [ToNumber default]. rewrite in_app_iff. split.
  - intros [Hin|Hin].
    + destruct (latencyBreach threshold recentTests); [|destruct Hin].
      destruct Hin as [Hin|[]]. discriminate Hin.
    + destruct (successRateBreach threshold recentTests); [reflexivity|destruct Hin].
  - intros ->. right. left. reflexivity.
Qed.

Lemma In_breaches_high threshold recentTests avg m :
  avg_latency recentTests = Some avg -> maxLatency threshold = Some m ->
  In (HighLatency avg m) (breaches threshold recentTests)
  <-> latencyBreach threshold recentTests = true.
Proof.
  intros Havg Hm. unfold breaches.
  rewrite Havg, Hm. cbn [ToNumber default]. rewrite in_app_iff. split.
  - intros [Hin|Hin].
    + destruct (latencyBreach threshold recentTests); [reflexivity|destruct Hin].
    + destruct (successRateBreach threshold recentTests); [|destruct Hin].
      destruct Hin as [Hin|[]]. discriminate Hin.
  - intros ->. left. left. reflexivity.
Qed.

(** C8, counterexample. The ten stored results have an average latency of
    100 ms, which is strictly above [maxLatency = 0]; yet the evaluation of
    the newest of them raises no latency breach and sends nothing, because
    the condition tests the truthiness of the limit first. *)
Lemma zero_maxLatency_is_no_limit :
  checkAlertThresholds healthy lastOfTen (afterTen 1 (onlyLatency 0))
    = (Ok tt, afterTen 1 (onlyLatency 0),
       [Select "https://a.test" (inject_Z 9000 - 60000)])
  /\ (exists avg,
        avg_latency (recent (tenResults 1) "https://a.test" (inject_Z 9000 - 60000))
          = Some avg
        /\ (avg == 100)%Q /\ (0 < avg)%Q)
  /\ latencyBreach (onlyLatency 0)
       (recent (tenResults 1) "https://a.test" (inject_Z 9000 - 60000)) = false
  /\ ~ breach_iff_beyond_limit.
Proof.
  split; [reflexivity|]. split; [eexists; repeat split|]. split; [reflexivity|].
  intros Hclaim.
  destruct (Hclaim (onlyLatency 0) (tenResults 1) "https://a.test"
              (inject_Z 9000 - 60000)%Q _ _ eq_refl eq_refl) as [_ Hlatency].
  destruct (Hlatency 0%Q eq_refl) as [_ Hfires].
  discriminate Hfires. reflexivity.
Qed.

(** C8, as the code has it. Over a window that holds at least one result
    (as it does for the result just stored), the success-rate breach fires
    exactly when the windowed success rate is strictly below
    [minSuccessRate], and the latency breach fires exactly when [maxLatency]
    is not 0 and the windowed average latency is strictly above it. A
    breach fires when the condition of its [if] holds, and then, with a
    notification url, its message is among the alerts of the notification
    that [checkAlertThresholds] sends. At equality neither fires. *)
Theorem breach_boundaries_are_strict w result s threshold :
  alertThresholds s !! endpoint result = Some threshold ->
  List.filter (in_window (endpoint result)
                 (inject_Z (timestamp result) - windowSize threshold))
              (latency_tests s) <> [] ->
  exists avg rate,
    avg_latency (recent (latency_tests s) (endpoint result)
                   (inject_Z (timestamp result) - windowSize threshold)) = Some avg
    /\ success_rate (recent (latency_tests s) (endpoint result)
                       (inject_Z (timestamp result) - windowSize threshold)) = Some rate
    /\ (forall m, minSuccessRate threshold = Some m ->
        (successRateBreach threshold
           (recent (latency_tests s) (endpoint result)
              (inject_Z (timestamp result) - windowSize threshold)) = true
         <-> (rate < m)%Q)
        /\ (truthyString (notificationUrl threshold) = true ->
            In (LowSuccessRate rate m)
               (alertsSent (events (checkAlertThresholds w result s)))
            <-> (rate < m)%Q))
    /\ (forall m, maxLatency threshold = Some m ->
        (latencyBreach threshold
           (recent (latency_tests s) (endpoint result)
              (inject_Z (timestamp result) - windowSize threshold)) = true
         <-> ~ (m == 0)%Q /\ (m < avg)%Q)
        /\ (truthyString (notificationUrl threshold) = true ->
            In (HighLatency avg m)
               (alertsSent (events (checkAlertThresholds w result s)))
            <-> ~ (m == 0)%Q /\ (m < avg)%Q)).
Proof.
  intros Hsome Hrows.
  destruct (recent_nonempty _ _ _ Hrows) as (avg & rate & Havg & Hrate & Hpos).
  exists avg, rate. split; [exact Havg|]. split; [exact Hrate|].
  assert (truthyString (notificationUrl threshold) = true ->
          alertsSent (events (checkAlertThresholds w result s))
          = breaches threshold
              (recent (latency_tests s) (endpoint result)
                 (inject_Z (timestamp result) - windowSize threshold))) as Hsent.
  { intros Hurl.
    rewrite (checkAlertThresholds_events w result s threshold Hsome)
      by (rewrite Havg; discriminate).
    apply alertsSent_notification, Hurl. }
  set (recentTests := recent _ _ _) in *.
  split.
  - intros m Hm.
    pose proof (successRateBreach_iff threshold recentTests m Hm) as Hiff.
    rewrite Hrate in Hiff. cbn [ToNumber default] in Hiff. specialize (Hiff Hpos).
    split; [exact Hiff|]. intros Hurl.
    rewrite (Hsent Hurl), (In_breaches_low threshold recentTests rate m Hrate Hm).
    exact Hiff.
  - intros m Hm.
    pose proof (latencyBreach_exact threshold recentTests m Hm) as Hiff.
    rewrite Havg in Hiff. cbn [ToNumber default] in Hiff.
    split; [exact Hiff|]. intros Hurl.
    rewrite (Hsent Hurl), (In_breaches_high threshold recentTests avg m Havg Hm).
    exact Hiff.
Qed.

Lemma breach_boundaries_are_strict_witness :
  exists avg rate,
    avg_latency (recent (latency_tests (afterTen 1 (withLimits (Some 100%Q) (Some (9 # 10))
                                                      (onlySuccessRate 1))))
                   (endpoint lastOfTen)
                   (inject_Z (timestamp lastOfTen)
                    - windowSize (withLimits (Some 100%Q) (Some (9 # 10))
                                    (onlySuccessRate 1)))) = Some avg
    /\ success_rate (recent (latency_tests (afterTen 1 (withLimits (Some 100%Q)
                                                          (Some (9 # 10))
                                                          (onlySuccessRate 1))))
                       (endpoint lastOfTen)
                       (inject_Z (timestamp lastOfTen)
                        - windowSize (withLimits (Some 100%Q) (Some (9 # 10))
                                        (onlySuccessRate 1)))) = Some rate
    /\ (forall m, minSuccessRate (withLimits (Some 100%Q) (Some (9 # 10))
                                    (onlySuccessRate 1)) = Some m ->
        (successRateBreach (withLimits (Some 100%Q) (Some (9 # 10)) (onlySuccessRate 1))
           (recent (latency_tests (afterTen 1 (withLimits (Some 100%Q) (Some (9 # 10))
                                                 (onlySuccessRate 1))))
              (endpoint lastOfTen)
              (inject_Z (timestamp lastOfTen)
               - windowSize (withLimits (Some 100%Q) (Some (9 # 10))
                               (onlySuccessRate 1)))) = true
         <-> (rate < m)%Q)
        /\ (truthyString (notificationUrl (withLimits (Some 100%Q) (Some (9 # 10))
                                             (onlySuccessRate 1))) = true ->
            In (LowSuccessRate rate m)
               (alertsSent (events (checkAlertThresholds healthy lastOfTen
                                      (afterTen 1 (withLimits (Some 100%Q) (Some (9 # 10))
                                                     (onlySuccessRate 1))))))
            <-> (rate < m)%Q))
    /\ (forall m, maxLatency (withLimits (Some 100%Q) (Some (9 # 10))
                                (onlySuccessRate 1)) = Some m ->
        (latencyBreach (withLimits (Some 100%Q) (Some (9 # 10)) (onlySuccessRate 1))
           (recent (latency_tests (afterTen 1 (withLimits (Some 100%Q) (Some (9 # 10))
                                                 (onlySuccessRate 1))))
              (endpoint lastOfTen)
              (inject_Z (timestamp lastOfTen)
               - windowSize (withLimits (Some 100%Q) (Some (9 # 10))
                               (onlySuccessRate 1)))) = true
         <-> ~ (m == 0)%Q /\ (m < avg)%Q)
        /\ (truthyString (notificationUrl (withLimits (Some 100%Q) (Some (9 # 10))
                                             (onlySuccessRate 1))) = true ->
            In (HighLatency avg m)
               (alertsSent (events (checkAlertThresholds healthy lastOfTen
                                      (afterTen 1 (withLimits (Some 100%Q) (Some (9 # 10))
                                                     (onlySuccessRate 1))))))
            <-> ~ (m == 0)%Q /\ (m < avg)%Q)).
Proof.
  apply (breach_boundaries_are_strict healthy lastOfTen
           (afterTen 1 (withLimits (Some 100%Q) (Some (9 # 10)) (onlySuccessRate 1)))
           (withLimits (Some 100%Q) (Some (9 # 10)) (onlySuccessRate 1))).
  - reflexivity.
  - vm_compute. discriminate.
Defined.

(** The two windows of the specification's example: with two failures out
    of ten the rate 0.8 is below 0.9 and the breach fires; with one failure
    the rate is 0.9 and it does not. *)
Example success_rate_boundary :
  successRateBreach (onlySuccessRate (9 # 10)) (recent (tenResults 2) "https://a.test" 0)
    = true
  /\ successRateBreach (onlySuccessRate (9 # 10)) (recent (tenResults 1) "https://a.test" 0)
    = false.
Proof. split; reflexivity. Qed.

(** ** C10: a threshold of zero *)

(** C10. A limit stored as the number 0 is falsy, so the evaluator treats it
    as unset: whatever the windowed aggregates are, a [maxLatency] of 0
    never yields the latency breach and a [minSuccessRate] of 0 never yields
    the success-rate breach, and a threshold whose limits are both 0 sends
    no notification. The schema of [POST /alerts] accepts such a body. *)
Theorem zero_limit_is_unset threshold recentTests :
  (forall m, maxLatency threshold = Some m -> (m == 0)%Q ->
     latencyBreach threshold recentTests = false)
  /\ (forall m, minSuccessRate threshold = Some m -> (m == 0)%Q ->
     successRateBreach threshold recentTests = false)
  /\ (forall w result s,
        alertThresholds s !! endpoint result = Some threshold ->
        maxLatency threshold = Some 0%Q -> minSuccessRate threshold = Some 0%Q ->
        checkAlertThresholds w result s
          = (Ok tt, s,
             [Select (endpoint result)
                     (inject_Z (timestamp result) - windowSize threshold)]))
  /\ (forall is_uri,
        alertBodySchema is_uri threshold = true ->
        alertBodySchema is_uri (withLimits (Some 0%Q) (Some 0%Q) threshold) = true).
Proof.
  assert (forall m agg, maxLatency threshold = Some m -> (m == 0)%Q ->
            latencyBreach threshold agg = false) as Hlatency.
  { intros m agg Hm Hz. unfold latencyBreach. rewrite Hm, (truthyQ_zero m Hz). reflexivity. }
  assert (forall m agg, minSuccessRate threshold = Some m -> (m == 0)%Q ->
            successRateBreach threshold agg = false) as Hrate.
  { intros m agg Hm Hz. unfold successRateBreach.
    rewrite Hm, (truthyQ_zero m Hz). reflexivity. }
  split; [intros m; apply Hlatency|]. split; [intros m; apply Hrate|]. split.
  - intros w result s Hsome Hmax Hmin.
    rewrite (checkAlertThresholds_events w result s threshold Hsome).
    + unfold breaches, notification.
      rewrite (Hlatency 0%Q _ Hmax (Qeq_refl 0)), (Hrate 0%Q _ Hmin (Qeq_refl 0)).
      reflexivity.
    + rewrite (Hlatency 0%Q _ Hmax (Qeq_refl 0)). discriminate.
  - intros is_uri. unfold alertBodySchema, withLimits.
    cbn [threshold_endpoint maxLatency minSuccessRate windowSize notificationUrl optional].
    rewrite !andb_true_iff. intros ((((Hurl & _) & _) & Hwindow) & Hhook).
    repeat split; assumption.
Qed.

Lemma zero_limit_is_unset_witness :
  checkAlertThresholds healthy
    {| endpoint := "https://a.test"; timestamp := 9000; latency := 100;
       status := 200; success := false |}
    (set_latency_tests (tenResults 10)
       (final (setAlertThreshold (withLimits (Some 0%Q) (Some 0%Q) (onlySuccessRate 1)) boot)))
  = (Ok tt,
     set_latency_tests (tenResults 10)
       (final (setAlertThreshold (withLimits (Some 0%Q) (Some 0%Q) (onlySuccessRate 1)) boot)),
     [Select "https://a.test" (inject_Z 9000 - 60000)]).
Proof.
  apply (proj1 (proj2 (proj2 (zero_limit_is_unset
           (withLimits (Some 0%Q) (Some 0%Q) (onlySuccessRate 1))
           {| avg_latency := None; success_rate := None |})))).
  - vm_compute. reflexivity.
  - reflexivity.
  - reflexivity.
Defined.

(** ** C3: a window without results *)


(** ** C2: a failing telemetry push *)




(** * Further properties of the code *)

(** ** The probe executor: retries until the first response *)



(** ** The probe executor: every run *)



Lemma Math_round_nonneg x : (0 <= x)%Q -> 0 <= Math_round x.
Proof.
  intros Hx. rewrite <- (Math_round_Z 0). apply Math_round_le. exact Hx.
Qed.

Lemma spent_nonneg w options k :
  (forall i, 0 <= takes (target w i))%Q ->
  (forall i response, settles (target w i) = Resolved response ->
                      0 <= body_takes response)%Q ->
  (0 <= spent options (target w k))%Q.
Proof.
  intros Htakes Hbody. unfold spent. specialize (Htakes k). specialize (Hbody k).
  destruct (settles (target w k)) as [|response]; [exact Htakes|].
  destruct (statusAccepted options response); [|exact Htakes].
  destruct (validateResponse options); [|exact Htakes].
  change 0%Q with (0 + 0)%Q. apply Qplus_le_compat; [exact Htakes | apply Hbody; reflexivity].
Qed.

Lemma retryTime_nonneg w options : forall count from,
  (forall i, 0 <= spent options (target w i))%Q ->
  (forall i, 0 <= timerLag w i)%Q ->
  (0 <= retryTime w options from count)%Q.
Proof.
  intros count from Hspent Hlag. unfold retryTime.
  apply Qsum_nonneg, List.Forall_forall. intros x Hx.
  apply in_map_iff in Hx as (k & <- & _).
  change 0%Q with (0 + (0 + 0))%Q.
  apply Qplus_le_compat; [apply Hspent|].
  apply Qplus_le_compat; [discriminate | apply Hlag].
Qed.

Lemma exhaustionTime_nonneg w options n :
  (forall i, 0 <= spent options (target w i))%Q ->
  (forall i, 0 <= timerLag w i)%Q ->
  (0 <= exhaustionTime w options 0 (S n))%Q.
Proof.
  intros Hspent Hlag.
  eapply Qle_trans; [|apply exhaustionTime_lower_bound; assumption].
  change 0%Q with (inject_Z 0). rewrite <- Zle_Qle. lia.
Qed.

(** X3. When no request, body read or timer takes negative time, the
    latency of every probe result is a non-negative number of milliseconds
    and its timestamp is not earlier than the moment [performTest] was
    called; and a probe with a whole [retryCount] that is not negative has
    a result. *)
Theorem performTest_latency_nonneg w url options s :
  (forall i, 0 <= takes (target w i))%Q ->
  (forall i response, settles (target w i) = Resolved response ->
                      0 <= body_takes response)%Q ->
  (forall i, 0 <= timerLag w i)%Q ->
  (forall r, outcome (performTest w url options s) = Ok r ->
     0 <= latency r
     /\ timeOrigin s + Qfloor (clock s) <= timestamp r)
  /\ (forall n, (default 0%Q (retryCount options) == inject_Z n)%Q -> 0 <= n ->
      exists r, outcome (performTest w url options s) = Ok r).
Proof.
  intros Htakes Hbody Hlag. split; [|intros n; apply performTest_returns].
  intros r Hr.
  assert (forall i, 0 <= spent options (target w i))%Q as Hspent
    by (intros i; apply spent_nonneg; assumption).
  assert (forall s' d, (0 <= d)%Q -> (clock s' == clock s + d)%Q ->
            timeOrigin s + Qfloor (clock s) <= timeOrigin s + Qfloor (clock s')) as Hlater.
  { intros s' d Hd Hclock. apply Z.add_le_mono_l, Qfloor_resp_le. rewrite Hclock.
    rewrite <- (Qplus_0_r (clock s)) at 1.
    apply Qplus_le_compat; [apply Qle_refl | exact Hd]. }
  destruct (probe_cases w options)
    as [Hnone|[(k & Hk & Hret & Hbefore)|[(n & Hn & Hpos & Hall)|(Hpos & Hfrac & Hall)]]].
  - rewrite (performTest_no_try w url options s Hnone) in Hr. discriminate Hr.
  - destruct (not_throwing_resolved _ _ Hret) as (response & Hres).
    destruct (performTest_first_response_after w url options s k response
                Hk Hbefore Hres Hret)
      as (r' & s' & evs & Hrun & _ & Hts & Hlat & _ & _ & _ & Hclock & _ & _).
    rewrite Hrun in Hr. cbn [outcome fst] in Hr. injection Hr as <-.
    pose proof (retryTime_nonneg w options k 0%nat Hspent Hlag) as Hnn.
    split.
    + rewrite Hlat. apply Math_round_nonneg.
      assert (clock s + retryTime w options 0 k + takes (target w k) - clock s
              == retryTime w options 0 k + takes (target w k))%Q as Heq by ring.
      rewrite Heq. change 0%Q with (0 + 0)%Q. apply Qplus_le_compat; [exact Hnn | apply Htakes].
    + rewrite Hts. eapply (Hlater s' (retryTime w options 0 k + spent options (target w k))%Q).
      * change 0%Q with (0 + 0)%Q. apply Qplus_le_compat; [exact Hnn | apply Hspent].
      * rewrite Hclock. ring.
  - destruct (performTest_exhausts w url options s n Hn Hpos Hall)
      as (s' & evs & Hrun & _ & Hclock & _ & _).
    rewrite Hrun in Hr. cbn [outcome fst] in Hr. injection Hr as <-.
    cbn [latency timestamp].
    pose proof (exhaustionTime_nonneg w options (Z.to_nat n) Hspent Hlag) as Hnn.
    split.
    + apply Math_round_nonneg. rewrite Hclock.
      assert (clock s + exhaustionTime w options 0 (S (Z.to_nat n)) - clock s
              == exhaustionTime w options 0 (S (Z.to_nat n)))%Q as Heq by ring.
      rewrite Heq. exact Hnn.
    + eapply Hlater; [exact Hnn | exact Hclock].
  - destruct (performTest_falls_through w url options s Hpos Hfrac Hall)
      as (s' & evs & Hrun & _).
    rewrite Hrun in Hr. discriminate Hr.
Qed.

Lemma performTest_latency_nonneg_witness :
  (forall r,
     outcome (performTest recovering "https://a.test" (retrying 3 None) boot) = Ok r ->
     0 <= latency r
     /\ timeOrigin boot + Qfloor (clock boot) <= timestamp r)
  /\ (forall n, (default 0%Q (retryCount (retrying 3 None)) == inject_Z n)%Q -> 0 <= n ->
      exists r,
        outcome (performTest recovering "https://a.test" (retrying 3 None) boot) = Ok r).
Proof.
  apply (performTest_latency_nonneg recovering "https://a.test" (retrying 3 None) boot).
  - intros i. cbn. discriminate.
  - intros i response. unfold recovering. cbn [target settles].
    destruct (i <? 2)%nat; [discriminate|]. intros [= <-]. discriminate.
  - intros i. cbn. discriminate.
Defined.



(** ** The result store *)

Lemma same_key_spec a b : same_key a b = true <-> key a = key b.
Proof.
  unfold same_key, key. rewrite andb_true_iff, Z.eqb_eq, String.eqb_eq.
  split; [intros [-> ->]; reflexivity | intros [= -> ->]; split; reflexivity].
Qed.

Lemma same_key_false a b : same_key a b = false <-> key a <> key b.
Proof.
  rewrite <- same_key_spec. destruct (same_key a b); split; congruence.
Qed.

Lemma In_insert_or_replace row table old :
  In old (insert_or_replace row table)
  <-> old = row \/ (In old table /\ key old <> key row).
Proof.
  unfold insert_or_replace. cbn [In]. rewrite filter_In, negb_true_iff, same_key_false.
  split; intros [H|H]; auto.
Qed.

(** X5. [INSERT OR REPLACE] is an upsert on the key (timestamp, endpoint):
    afterwards the table holds the new row and exactly those old rows whose
    key differs from its key; a table without duplicate keys stays without
    duplicate keys, and it grows by one row at most. *)
Theorem insert_or_replace_upsert row table :
  In row (insert_or_replace row table)
  /\ (forall old, In old (insert_or_replace row table)
                  <-> old = row \/ (In old table /\ key old <> key row))
  /\ (unique_keys table -> unique_keys (insert_or_replace row table))
  /\ (length (insert_or_replace row table) <= S (length table))%nat.
Proof.
  split; [left; reflexivity|]. split; [apply In_insert_or_replace|]. split.
  - unfold unique_keys, insert_or_replace. intros Hunique. cbn [map].
    apply List.NoDup_cons.
    + intros Hin. apply in_map_iff in Hin as (old & Hkey & Hold).
      apply filter_In in Hold as [_ Hne].
      apply negb_true_iff, same_key_false in Hne. contradiction.
    + induction table as [|x table IH]; cbn [List.filter map]; [constructor|].
      apply List.NoDup_cons_iff in Hunique as [Hx Hrest].
      destruct (negb (same_key x row)); [|apply IH, Hrest].
      cbn [map]. apply List.NoDup_cons; [|apply IH, Hrest].
      intros Hin. apply in_map_iff in Hin as (y & Hkey & Hy). apply Hx.
      apply in_map_iff. exists y. split; [exact Hkey|].
      apply filter_In in Hy. tauto.
  - unfold insert_or_replace. cbn [length]. apply le_n_S, filter_length_le.
Qed.

Lemma filter_other_keys a b table :
  key a = key b ->
  List.filter (fun old => negb (same_key old b))
              (List.filter (fun old => negb (same_key old a)) table)
  = List.filter (fun old => negb (same_key old b)) table.
Proof.
  intros Hkey. induction table as [|x table IH]; [reflexivity|]. cbn [List.filter].
  assert (same_key x a = same_key x b) as Hsame.
  { destruct (same_key x b) eqn:Hb.
    - apply same_key_spec. apply same_key_spec in Hb. congruence.
    - apply same_key_false. apply same_key_false in Hb. congruence. }
  rewrite Hsame. destruct (negb (same_key x b)) eqn:Hx; [|exact IH].
  cbn [List.filter]. rewrite Hx, IH. reflexivity.
Qed.

(** X6. A second write with the same timestamp and endpoint overwrites the
    first one: the table is the one the second write alone would have
    produced. In particular storing the same result twice is storing it
    once. *)
Theorem insert_or_replace_overwrites a b table :
  (key a = key b ->
   insert_or_replace b (insert_or_replace a table) = insert_or_replace b table)
  /\ insert_or_replace a (insert_or_replace a table) = insert_or_replace a table.
Proof.
  assert (forall x y, key x = key y ->
            insert_or_replace y (insert_or_replace x table) = insert_or_replace y table)
    as Hover.
  { intros x y Hkey. unfold insert_or_replace. cbn [List.filter].
    assert (same_key x y = true) as -> by (apply same_key_spec, Hkey).
    cbn [negb]. rewrite (filter_other_keys x y table Hkey). reflexivity. }
  split; [apply Hover | apply Hover; reflexivity].
Qed.

Lemma clock_only_latency_tests s s' : clock_only s s' -> latency_tests s' = latency_tests s.
Proof. intros ->. reflexivity. Qed.

Lemma clock_only_alertThresholds s s' :
  clock_only s s' -> alertThresholds s' = alertThresholds s.
Proof. intros ->. reflexivity. Qed.

(** X7. When the probe has returned its result and the insert fails, the
    probe cycle rejects with the store's error right after the probe:
    nothing is pushed to Grafana, no threshold is evaluated and the table of
    results is as it was. The probe returns a result whenever [retryCount]
    is a whole number that is not negative. *)
Theorem store_failure_rejects_cycle w url options s :
  diskFull w = true ->
  (forall r, outcome (performTest w url options s) = Ok r ->
     outcome (testEndpoint w url options s) = Throw StoreError
     /\ events (testEndpoint w url options s) = events (performTest w url options s)
     /\ latency_tests (final (testEndpoint w url options s)) = latency_tests s)
  /\ (forall n, (default 0%Q (retryCount options) == inject_Z n)%Q -> 0 <= n ->
      exists r, outcome (performTest w url options s) = Ok r).
Proof.
  intros Hdisk. split; [|intros n; apply performTest_returns].
  intros r Hr.
  destruct (performTest_returned w url options s r Hr) as [_ Hframe].
  unfold testEndpoint, storeResult. rewrite Hdisk. run.
  destruct (performTest w url options s) as [[o s'] evs].
  cbn [outcome final fst snd] in *. subst o.
  split; [reflexivity|]. split; [apply app_nil_r|].
  apply clock_only_latency_tests, Hframe.
Qed.

Lemma store_failure_rejects_cycle_witness :
  (forall r,
     outcome (performTest (steady' true) "https://a.test" noOptions boot) = Ok r ->
     outcome (testEndpoint (steady' true) "https://a.test" noOptions boot) = Throw StoreError
     /\ events (testEndpoint (steady' true) "https://a.test" noOptions boot)
        = events (performTest (steady' true) "https://a.test" noOptions boot)
     /\ latency_tests (final (testEndpoint (steady' true) "https://a.test" noOptions boot))
        = latency_tests boot)
  /\ (forall n, (default 0%Q (retryCount noOptions) == inject_Z n)%Q -> 0 <= n ->
      exists r,
        outcome (performTest (steady' true) "https://a.test" noOptions boot) = Ok r).
Proof.
  apply (store_failure_rejects_cycle (steady' true) "https://a.test" noOptions boot).
  reflexivity.
Defined.

(** ** The alert evaluator: frame, isolation and range *)

Lemma withoutLog_notification w w' threshold about alerts :
  withoutLog (notification w threshold about alerts)
  = withoutLog (notification w' threshold about alerts).
Proof.
  unfold notification. destruct (_ && _); [|reflexivity].
  unfold withoutLog. cbn [List.filter isConsoleError negb].
  destruct (webhook w), (webhook w'); reflexivity.
Qed.

(** The evaluation throws exactly when the latency breach holds over a
    [NULL] average. *)
Lemma checkAlertThresholds_null_average w result s threshold :
  alertThresholds s !! endpoint result = Some threshold ->
  latencyBreach threshold
    (recent (latency_tests s) (endpoint result)
       (inject_Z (timestamp result) - windowSize threshold)) = true ->
  avg_latency
    (recent (latency_tests s) (endpoint result)
       (inject_Z (timestamp result) - windowSize threshold)) = None ->
  checkAlertThresholds w result s
    = (Throw TypeError, s,
       [Select (endpoint result) (inject_Z (timestamp result) - windowSize threshold)]).
Proof.
  intros Hsome Hbreach Hnull. unfold checkAlertThresholds. run. rewrite Hsome. run.
  rewrite Hbreach, Hnull. reflexivity.
Qed.

(** X8. The evaluator owns no state and contains webhook failures: for
    every result, [checkAlertThresholds] leaves the state as it found it,
    and whether the webhook can be reached changes neither its outcome nor
    the query and the notification it issues, only a line on the console. *)
Theorem checkAlertThresholds_contains_webhook w w' result s :
  final (checkAlertThresholds w result s) = s
  /\ outcome (checkAlertThresholds w result s) = outcome (checkAlertThresholds w' result s)
  /\ withoutLog (events (checkAlertThresholds w result s))
     = withoutLog (events (checkAlertThresholds w' result s)).
Proof.
  destruct (alertThresholds s !! endpoint result) as [threshold|] eqn:Hlookup.
  - destruct (latencyBreach threshold
                (recent (latency_tests s) (endpoint result)
                   (inject_Z (timestamp result) - windowSize threshold))) eqn:Hbreach;
      [destruct (avg_latency
                   (recent (latency_tests s) (endpoint result)
                      (inject_Z (timestamp result) - windowSize threshold))) eqn:Havg|].
    + rewrite !(checkAlertThresholds_events _ result s threshold Hlookup)
        by (rewrite Havg; discriminate).
      cbn [final outcome events fst snd]. repeat split.
      unfold withoutLog. cbn [List.filter isConsoleError negb]. f_equal.
      apply withoutLog_notification.
    + rewrite !(checkAlertThresholds_null_average _ result s threshold Hlookup Hbreach Havg).
      repeat split.
    + rewrite !(checkAlertThresholds_events _ result s threshold Hlookup)
        by (rewrite Hbreach; discriminate).
      cbn [final outcome events fst snd]. repeat split.
      unfold withoutLog. cbn [List.filter isConsoleError negb]. f_equal.
      apply withoutLog_notification.
  - rewrite !(checkAlertThresholds_no_threshold _ result s Hlookup). repeat split.
Qed.

Lemma filter_implied {A} (p q : A -> bool) (l : list A) :
  (forall x, p x = true -> q x = true) ->
  List.filter p (List.filter q l) = List.filter p l.
Proof.
  intros Himp. induction l as [|x l IH]; [reflexivity|]. cbn [List.filter].
  destruct (q x) eqn:Hq.
  - cbn [List.filter]. rewrite IH. reflexivity.
  - destruct (p x) eqn:Hp; [|exact IH]. apply Himp in Hp. congruence.
Qed.

(** X9. The windowed aggregates of an endpoint depend on the results of
    that endpoint only: storing a result of another endpoint changes
    neither its average latency nor its success rate. *)
Theorem recent_ignores_other_endpoints result table url windowStart :
  endpoint result <> url ->
  recent (insert_or_replace result table) url windowStart
  = recent table url windowStart.
Proof.
  intros Hother. unfold recent, insert_or_replace. cbn [List.filter].
  assert (in_window url windowStart result = false) as ->.
  { unfold in_window. apply andb_false_iff. left. apply String.eqb_neq. exact Hother. }
  rewrite filter_implied; [reflexivity|].
  intros x Hx. unfold in_window in Hx. apply andb_true_iff in Hx as [Hurl _].
  apply String.eqb_eq in Hurl. apply negb_true_iff, same_key_false.
  unfold key. intros [= _ Hsame]. congruence.
Qed.

Lemma recent_ignores_other_endpoints_witness :
  recent (insert_or_replace
            {| endpoint := "https://b.test"; timestamp := 500; latency := 9000;
               status := 0; success := false |}
            (tenResults 1))
         "https://a.test" 0
  = recent (tenResults 1) "https://a.test" 0.
Proof.
  apply (recent_ignores_other_endpoints
           {| endpoint := "https://b.test"; timestamp := 500; latency := 9000;
              status := 0; success := false |}
           (tenResults 1) "https://a.test" 0%Q).
  discriminate.
Defined.

Lemma Qsum_le_length (xs : list Q) :
  Forall (fun x => x <= 1)%Q xs -> (Qsum xs <= inject_Z (Z.of_nat (length xs)))%Q.
Proof.
  induction 1 as [|x xs Hx _ IH]; [cbn; apply Qle_refl|].
  cbn [length]. rewrite Nat2Z.inj_succ, <- Z.add_1_l, inject_Z_plus.
  cbn [Qsum fold_right]. apply Qplus_le_compat; [exact Hx | exact IH].
Qed.

Lemma AVG_le_one xs avg :
  Forall (fun x => x <= 1)%Q xs -> AVG xs = Some avg -> (avg <= 1)%Q.
Proof.
  intros Hxs. destruct xs as [|x xs]; [discriminate|].
  rewrite AVG_cons. intros [= <-].
  apply Qle_shift_div_r.
  - change 0%Q with (inject_Z 0). rewrite <- Zlt_Qlt. cbn [length]. lia.
  - rewrite Qmult_1_l. apply (Qsum_le_length (x :: xs)), Hxs.
Qed.

(** X10. Over a window with at least one result the success rate lies
    between 0 and 1, and the average latency is not negative when no
    stored latency is. *)
Theorem aggregates_in_range table url windowStart :
  List.filter (in_window url windowStart) table <> [] ->
  exists avg rate,
    avg_latency (recent table url windowStart) = Some avg
    /\ success_rate (recent table url windowStart) = Some rate
    /\ (0 <= rate)%Q /\ (rate <= 1)%Q
    /\ (Forall (fun row => 0 <= latency row) table -> (0 <= avg)%Q).
Proof.
  intros Hrows.
  destruct (recent_nonempty table url windowStart Hrows) as (avg & rate & Havg & Hrate & Hpos).
  exists avg, rate. split; [exact Havg|]. split; [exact Hrate|]. split; [exact Hpos|].
  unfold recent in Havg, Hrate. cbn [avg_latency success_rate] in Havg, Hrate. split.
  - eapply AVG_le_one; [|exact Hrate].
    apply List.Forall_forall. intros x Hx.
    apply in_map_iff in Hx as (r & <- & _). destruct (success r); discriminate.
  - intros Hlat. eapply AVG_nonneg; [|exact Havg].
    apply List.Forall_forall. intros x Hx.
    apply in_map_iff in Hx as (r & <- & Hr). apply filter_In in Hr as [Hr _].
    rewrite List.Forall_forall in Hlat. specialize (Hlat r Hr).
    change 0%Q with (inject_Z 0). rewrite <- Zle_Qle. exact Hlat.
Qed.

Lemma aggregates_in_range_witness :
  exists avg rate,
    avg_latency (recent (tenResults 3) "https://a.test" 0) = Some avg
    /\ success_rate (recent (tenResults 3) "https://a.test" 0) = Some rate
    /\ (0 <= rate)%Q /\ (rate <= 1)%Q
    /\ (Forall (fun row => 0 <= latency row) (tenResults 3) -> (0 <= avg)%Q).
Proof.
  apply (aggregates_in_range (tenResults 3) "https://a.test" 0%Q).
  vm_compute. discriminate.
Defined.

(** X11. Over an empty window a negative [maxLatency] makes the latency
    comparison [null > maxLatency] true; formatting the [null] average for
    the message then raises a TypeError, so [checkAlertThresholds] rejects
    right after its query and sends nothing, whatever the success-rate
    limit is. *)
Theorem empty_window_negative_maxLatency_throws w result s threshold m :
  alertThresholds s !! endpoint result = Some threshold ->
  List.filter (in_window (endpoint result)
                 (inject_Z (timestamp result) - windowSize threshold))
              (latency_tests s) = [] ->
  maxLatency threshold = Some m -> (m < 0)%Q ->
  checkAlertThresholds w result s
    = (Throw TypeError, s,
       [Select (endpoint result) (inject_Z (timestamp result) - windowSize threshold)]).
Proof.
  intros Hsome Hempty Hm Hneg.
  apply (checkAlertThresholds_null_average w result s threshold Hsome).
  - rewrite (recent_empty _ _ _ Hempty).
    apply (latencyBreach_iff threshold _ m Hm).
    + intros Hz. rewrite Hz in Hneg. discriminate Hneg.
    + exact Hneg.
  - rewrite (recent_empty _ _ _ Hempty). reflexivity.
Qed.

Lemma empty_window_negative_maxLatency_throws_witness :
  checkAlertThresholds healthy
    {| endpoint := "https://a.test"; timestamp := 1700000000050; latency := 50;
       status := 200; success := true |}
    (final (setAlertThreshold (onlyLatency (-5)) boot))
  = (Throw TypeError,
     final (setAlertThreshold (onlyLatency (-5)) boot),
     [Select "https://a.test" (inject_Z 1700000000050 - 60000)]).
Proof.
  apply (empty_window_negative_maxLatency_throws healthy
           {| endpoint := "https://a.test"; timestamp := 1700000000050; latency := 50;
              status := 200; success := true |}
           (final (setAlertThreshold (onlyLatency (-5)) boot))
           (onlyLatency (-5)) (-5)%Q);
    reflexivity.
Defined.

(** ** A probe cycle that goes through *)

(** X12. When the probe has returned its result, the insert and the push
    succeed and the endpoint's threshold (if any) has a window size that is
    not negative, the probe cycle returns the probe's result: that result is
    upserted into the table, then pushed, then evaluated in the state that
    holds it, and the evaluation does not throw. The probe returns a result
    whenever [retryCount] is a whole number that is not negative. *)
Theorem testEndpoint_stores_pushes_evaluates w url options s :
  diskFull w = false -> pushFails w = false ->
  (forall threshold, alertThresholds s !! url = Some threshold ->
                     (0 <= windowSize threshold)%Q) ->
  (forall r, outcome (performTest w url options s) = Ok r ->
     outcome (testEndpoint w url options s) = Ok r
     /\ latency_tests (final (testEndpoint w url options s))
        = insert_or_replace r (latency_tests s)
     /\ events (testEndpoint w url options s)
        = events (performTest w url options s)
          ++ Insert r :: Push r
             :: events (checkAlertThresholds w r
                          (set_latency_tests (insert_or_replace r (latency_tests s))
                             (final (performTest w url options s)))))
  /\ (forall n, (default 0%Q (retryCount options) == inject_Z n)%Q -> 0 <= n ->
      exists r, outcome (performTest w url options s) = Ok r).
Proof.
  intros Hdisk Hpush Hwindow. split; [|intros n; apply performTest_returns].
  intros r Hr.
  destruct (performTest_returned w url options s r Hr) as [Hurl Hframe].
  destruct (performTest w url options s) as [[o s1] evs] eqn:Hrun.
  cbn [outcome final fst snd] in *. subst o.
  pose proof (clock_only_latency_tests _ _ Hframe) as Htable.
  pose proof (clock_only_alertThresholds _ _ Hframe) as Hmem.
  set (stored := set_latency_tests (insert_or_replace r (latency_tests s1)) s1).
  assert (exists evc, checkAlertThresholds w r stored = (Ok tt, stored, evc))
    as (evc & Hcheck).
  { destruct (alertThresholds stored !! endpoint r) as [threshold|] eqn:Hlookup.
    - eexists. apply (checkAlertThresholds_events w r stored threshold Hlookup).
      intros _.
      destruct (recent_nonempty (latency_tests stored) (endpoint r)
                  (inject_Z (timestamp r) - windowSize threshold))
        as (avg & rate & Havg & _).
      + apply stored_result_in_window. apply Hwindow.
        rewrite <- Hmem, <- Hurl. exact Hlookup.
      + rewrite Havg. discriminate.
    - eexists. apply checkAlertThresholds_no_threshold, Hlookup. }
  unfold testEndpoint, storeResult, pushMetrics. unfold pushFails in Hpush.
  rewrite Hdisk. run. rewrite Hrun.
  destruct (grafana w) as [|response]; [discriminate|]. rewrite Hpush.
  fold stored. rewrite <- Htable. fold stored. rewrite Hcheck.
  repeat split.
  change (evs ++ Insert r :: Push r :: evc ++ [] = evs ++ Insert r :: Push r :: evc).
  rewrite app_nil_r. reflexivity.
Qed.

Lemma testEndpoint_stores_pushes_evaluates_witness :
  exists r,
    outcome (performTest healthy "https://a.test" noOptions
               (final (setAlertThreshold (onlyLatency 10) boot))) = Ok r
    /\ outcome (testEndpoint healthy "https://a.test" noOptions
                  (final (setAlertThreshold (onlyLatency 10) boot))) = Ok r
    /\ latency_tests (final (testEndpoint healthy "https://a.test" noOptions
                               (final (setAlertThreshold (onlyLatency 10) boot))))
       = insert_or_replace r
           (latency_tests (final (setAlertThreshold (onlyLatency 10) boot)))
    /\ events (testEndpoint healthy "https://a.test" noOptions
                 (final (setAlertThreshold (onlyLatency 10) boot)))
       = events (performTest healthy "https://a.test" noOptions
                   (final (setAlertThreshold (onlyLatency 10) boot)))
         ++ Insert r :: Push r
            :: events (checkAlertThresholds healthy r
                         (set_latency_tests
                            (insert_or_replace r
                               (latency_tests
                                  (final (setAlertThreshold (onlyLatency 10) boot))))
                            (final (performTest healthy "https://a.test" noOptions
                                      (final (setAlertThreshold (onlyLatency 10) boot)))))).
Proof.
  destruct (testEndpoint_stores_pushes_evaluates healthy "https://a.test" noOptions
              (final (setAlertThreshold (onlyLatency 10) boot)) eq_refl eq_refl)
    as [Hcycle Hreturns].
  { intros threshold Hlookup. vm_compute in Hlookup.
    injection Hlookup as <-. discriminate. }
  destruct (Hreturns 0 ltac:(reflexivity) ltac:(lia)) as (r & Hr).
  exists r. split; [exact Hr | apply Hcycle, Hr].
Defined.

(** ** The threshold table *)

(** X13. Setting a threshold and reading it back is a round trip, and the
    thresholds are keyed by endpoint: after [setAlertThreshold] the endpoint
    of the threshold reads that threshold, every other endpoint reads what it
    read before, and a later threshold for the same endpoint replaces the
    earlier one. After [removeAlertThreshold] the endpoint reads nothing,
    and removing where nothing is stored changes nothing. *)
Theorem threshold_set_get_remove threshold later url s :
  outcome (getAlertThreshold (threshold_endpoint threshold)
             (final (setAlertThreshold threshold s))) = Ok (Some threshold)
  /\ (url <> threshold_endpoint threshold ->
      outcome (getAlertThreshold url (final (setAlertThreshold threshold s)))
      = outcome (getAlertThreshold url s))
  /\ (threshold_endpoint later = threshold_endpoint threshold ->
      final (setAlertThreshold later (final (setAlertThreshold threshold s)))
      = final (setAlertThreshold later s))
  /\ outcome (getAlertThreshold url (final (removeAlertThreshold url s))) = Ok None
  /\ (alertThresholds s !! url = None -> alert_thresholds s !! url = None ->
      final (removeAlertThreshold url s) = s).
Proof.
  unfold getAlertThreshold, setAlertThreshold, removeAlertThreshold. run.
  split; [rewrite lookup_insert_eq; reflexivity|].
  split; [intros Hne; rewrite lookup_insert_ne by congruence; reflexivity|].
  split; [intros ->; unfold set_thresholds; run; rewrite !insert_insert_eq; reflexivity|].
  split; [rewrite lookup_delete_eq; reflexivity|].
  intros Hmem Htable. unfold set_thresholds.
  rewrite (delete_id _ _ Hmem), (delete_id _ _ Htable). destruct s. reflexivity.
Qed.

Lemma mirrored_untouched s s' : scheduler_untouched s s' -> mirrored s -> mirrored s'.
Proof.
  intros (_ & _ & _ & Hmem & Htable) [Heq Hkeys]. unfold mirrored.
  rewrite Hmem, Htable. split; assumption.
Qed.

(** The run of [startMonitoring] for an endpoint without a session. *)
Lemma startMonitoring_run DEFAULT_INTERVAL w url options s :
  activeTests s !! url = None ->
  startMonitoring DEFAULT_INTERVAL w url options s
  = (outcome (testEndpoint w url (normalize DEFAULT_INTERVAL options)
                (armed url (normalize DEFAULT_INTERVAL options) s)),
     final (testEndpoint w url (normalize DEFAULT_INTERVAL options)
              (armed url (normalize DEFAULT_INTERVAL options) s)),
     SetInterval (nextTimer s)
       (default DEFAULT_INTERVAL (interval (normalize DEFAULT_INTERVAL options)))
     :: events (testEndpoint w url (normalize DEFAULT_INTERVAL options)
                  (armed url (normalize DEFAULT_INTERVAL options) s))).
Proof.
  intros Hfree. unfold startMonitoring, setInterval. run. rewrite Hfree. run.
  change (set_sessions _ _ _ (set_sessions _ _ _ s))
    with (armed url (normalize DEFAULT_INTERVAL options) s).
  destruct (testEndpoint w url (normalize DEFAULT_INTERVAL options)
              (armed url (normalize DEFAULT_INTERVAL options) s))
    as [[o s'] evs].
  reflexivity.
Qed.

Lemma startMonitoring_mirrored DEFAULT_INTERVAL w url options s :
  mirrored s -> mirrored (final (startMonitoring DEFAULT_INTERVAL w url options s)).
Proof.
  intros Hs. destruct (activeTests s !! url) as [timer|] eqn:Hlookup.
  - unfold startMonitoring. run. rewrite Hlookup. exact Hs.
  - rewrite (startMonitoring_run _ _ _ _ _ Hlookup). unfold final at 1. cbn [fst snd].
    eapply mirrored_untouched; [apply testEndpoint_frame|]. exact Hs.
Qed.

Lemma stopMonitoring_mirrored url s : mirrored s -> mirrored (final (stopMonitoring url s)).
Proof.
  intros Hs. destruct (activeTests s !! url) as [timer|] eqn:Hlookup.
  - rewrite (stopMonitoring_active _ _ _ Hlookup). exact Hs.
  - rewrite (stopMonitoring_idle _ _ Hlookup). exact Hs.
Qed.

Lemma mirrored_boot : mirrored boot.
Proof.
  split; [reflexivity|]. intros url row Hrow.
  unfold boot in Hrow. cbn [alert_thresholds] in Hrow.
  rewrite lookup_empty in Hrow. discriminate.
Qed.

Lemma setAlertThreshold_mirrored threshold s :
  mirrored s -> mirrored (final (setAlertThreshold threshold s)).
Proof.
  intros [Heq Hkeys]. unfold setAlertThreshold, mirrored. run. rewrite Heq.
  split; [reflexivity|]. intros url row.
  destruct (decide (threshold_endpoint threshold = url)) as [<-|Hne].
  - rewrite lookup_insert_eq. intros [= <-]. reflexivity.
  - rewrite lookup_insert_ne by exact Hne. apply Hkeys.
Qed.

Lemma removeAlertThreshold_mirrored url s :
  mirrored s -> mirrored (final (removeAlertThreshold url s)).
Proof.
  intros [Heq Hkeys]. unfold removeAlertThreshold, mirrored. run. rewrite Heq.
  split; [reflexivity|]. intros url' row.
  destruct (decide (url = url')) as [<-|Hne].
  - rewrite lookup_delete_eq. discriminate.
  - rewrite lookup_delete_ne by exact Hne. apply Hkeys.
Qed.

(** X14. The table of thresholds mirrors the memory of the engine: when the
    in-memory thresholds equal the rows of the [alert_thresholds] table,
    each row under its own endpoint, they still do after
    [setAlertThreshold], [removeAlertThreshold], a probe cycle, a timer
    firing, [startMonitoring] and [stopMonitoring]. *)
Theorem thresholds_stay_mirrored s :
  mirrored s ->
  (forall threshold, mirrored (final (setAlertThreshold threshold s)))
  /\ (forall url, mirrored (final (removeAlertThreshold url s)))
  /\ (forall w url options, mirrored (final (testEndpoint w url options s)))
  /\ (forall w timer, mirrored (final (onInterval w timer s)))
  /\ (forall DEFAULT_INTERVAL w url options,
        mirrored (final (startMonitoring DEFAULT_INTERVAL w url options s)))
  /\ (forall url, mirrored (final (stopMonitoring url s))).
Proof.
  intros Hs. split; [intros threshold; apply setAlertThreshold_mirrored, Hs|].
  split; [intros url; apply removeAlertThreshold_mirrored, Hs|].
  split.
  { intros w url options. eapply mirrored_untouched; [apply testEndpoint_frame | exact Hs]. }
  split.
  { intros w timer. eapply mirrored_untouched; [apply onInterval_frame | exact Hs]. }
  split.
  { intros D w url options. apply startMonitoring_mirrored, Hs. }
  intros url. apply stopMonitoring_mirrored, Hs.
Qed.

Lemma thresholds_stay_mirrored_witness :
  mirrored (final (setAlertThreshold (onlyLatency 10) boot)).
Proof.
  apply (proj1 (thresholds_stay_mirrored boot mirrored_boot)).
Defined.

Lemma fold_insert_other (rows : list AlertThreshold) :
  forall (mem : gmap string AlertThreshold) url,
  (forall row, In row rows -> threshold_endpoint row <> url) ->
  fold_left (fun mem row => <[threshold_endpoint row := row]> mem) rows mem !! url
  = mem !! url.
Proof.
  induction rows as [|x rows IH]; intros mem url Hother; [reflexivity|].
  cbn [fold_left]. rewrite IH by (intros row Hrow; apply Hother; right; exact Hrow).
  apply lookup_insert_ne, Hother. left. reflexivity.
Qed.

Lemma fold_insert_row (rows : list AlertThreshold) :
  forall (mem : gmap string AlertThreshold) row,
  List.NoDup (map threshold_endpoint rows) -> In row rows ->
  fold_left (fun mem row => <[threshold_endpoint row := row]> mem) rows mem
    !! threshold_endpoint row
  = Some row.
Proof.
  induction rows as [|x rows IH]; intros mem row Hnodup Hin; [destruct Hin|].
  cbn [map] in Hnodup. apply List.NoDup_cons_iff in Hnodup as [Hx Hrest].
  cbn [fold_left]. destruct Hin as [->|Hin].
  - rewrite fold_insert_other; [apply lookup_insert_eq|].
    intros other Hother Heq. apply Hx. rewrite <- Heq. apply in_map, Hother.
  - apply IH; assumption.
Qed.

(** Loading a well keyed table into an empty memory yields the table. *)
Lemma load_rows (table : gmap string AlertThreshold) :
  well_keyed table ->
  fold_left (fun mem row => <[threshold_endpoint row := row]> mem)
            (map snd (map_to_list table)) ∅
  = table.
Proof.
  intros Hkeys.
  assert (map threshold_endpoint (map snd (map_to_list table))
          = map fst (map_to_list table)) as Hendpoints.
  { rewrite map_map. apply map_ext_in. intros [url row] Hin. cbn.
    apply Hkeys. apply elem_of_map_to_list, list_elem_of_In. exact Hin. }
  assert (List.NoDup (map threshold_endpoint (map snd (map_to_list table)))) as Hnodup.
  { rewrite Hendpoints. apply NoDup_ListNoDup, NoDup_fst_map_to_list. }
  apply map_eq. intros url. destruct (table !! url) as [row|] eqn:Hlookup.
  - rewrite <- (Hkeys url row Hlookup). apply fold_insert_row; [exact Hnodup|].
    apply in_map_iff. exists (url, row). split; [reflexivity|].
    apply list_elem_of_In, elem_of_map_to_list. exact Hlookup.
  - rewrite fold_insert_other; [apply lookup_empty|].
    intros row Hin Heq. apply in_map_iff in Hin as ([url' row'] & Hsnd & Hin).
    cbn in Hsnd. subst row'.
    apply list_elem_of_In, elem_of_map_to_list in Hin.
    rewrite (Hkeys url' row Hin) in Heq. congruence.
Qed.

(** X15. Thresholds survive a restart: when the table mirrors the memory,
    a new process on the same database (empty memory, no timers) that runs
    [loadAlertThresholds] has the thresholds of the old process in memory
    again, and table and memory mirror each other. *)
Theorem thresholds_survive_restart origin s :
  mirrored s ->
  alertThresholds (final (loadAlertThresholds (restarted origin s))) = alertThresholds s
  /\ mirrored (final (loadAlertThresholds (restarted origin s))).
Proof.
  intros [Heq Hkeys]. unfold loadAlertThresholds, mirrored, bind, get, put, final.
  cbn [fst snd]. unfold set_thresholds, restarted. cbn [alertThresholds alert_thresholds].
  rewrite (load_rows _ Hkeys), Heq. repeat split. exact Hkeys.
Qed.

Lemma thresholds_survive_restart_witness :
  alertThresholds
    (final (loadAlertThresholds
              (restarted 1800000000000
                 (final (setAlertThreshold (onlyLatency 10) boot)))))
  = alertThresholds (final (setAlertThreshold (onlyLatency 10) boot))
  /\ mirrored
       (final (loadAlertThresholds
                 (restarted 1800000000000
                    (final (setAlertThreshold (onlyLatency 10) boot))))).
Proof.
  apply (thresholds_survive_restart 1800000000000
           (final (setAlertThreshold (onlyLatency 10) boot))).
  apply setAlertThreshold_mirrored, mirrored_boot.
Defined.

(** ** The monitor scheduler: sessions and timers *)

Lemma sessions_consistent_untouched s s' :
  scheduler_untouched s s' -> sessions_consistent s -> sessions_consistent s'.
Proof.
  intros (Hsessions & Htimers & Hnext & _) Hs. unfold sessions_consistent.
  rewrite Hsessions, Htimers, Hnext. exact Hs.
Qed.

Lemma sessions_consistent_fresh s :
  sessions_consistent s -> intervals s !! nextTimer s = None.
Proof.
  intros (_ & _ & Hbound). destruct (intervals s !! nextTimer s) eqn:Hlookup; [|reflexivity].
  exfalso. apply (Nat.lt_irrefl (nextTimer s)), Hbound.
  unfold Timer in *. rewrite Hlookup. discriminate.
Qed.

Lemma armed_consistent url options s :
  activeTests s !! url = None -> sessions_consistent s ->
  sessions_consistent (armed url options s).
Proof.
  intros Hfree Hs. pose proof (sessions_consistent_fresh s Hs) as Hfresh.
  destruct Hs as (Hsession & Htimer & Hbound). unfold sessions_consistent, armed. run.
  split; [|split].
  - intros url' timer. destruct (decide (url = url')) as [<-|Hne].
    + rewrite lookup_insert_eq. intros [= <-]. exists options. apply lookup_insert_eq.
    + rewrite lookup_insert_ne by exact Hne. intros Hlookup.
      destruct (Hsession url' timer Hlookup) as (options' & Harmed).
      exists options'. rewrite lookup_insert_ne; [exact Harmed|].
      intros <-. congruence.
  - intros timer url' options'. destruct (decide (nextTimer s = timer)) as [<-|Hne].
    + rewrite lookup_insert_eq. intros [= <- <-]. apply lookup_insert_eq.
    + rewrite lookup_insert_ne by exact Hne. intros Harmed.
      pose proof (Htimer timer url' options' Harmed) as Hlookup.
      rewrite lookup_insert_ne; [exact Hlookup|]. intros <-. congruence.
  - intros timer. destruct (decide (nextTimer s = timer)) as [<-|Hne]; [lia|].
    rewrite lookup_insert_ne by exact Hne. intros Harmed.
    specialize (Hbound timer Harmed). lia.
Qed.

Lemma startMonitoring_consistent DEFAULT_INTERVAL w url options s :
  sessions_consistent s ->
  sessions_consistent (final (startMonitoring DEFAULT_INTERVAL w url options s)).
Proof.
  intros Hs. destruct (activeTests s !! url) as [timer|] eqn:Hlookup.
  - unfold startMonitoring. run. rewrite Hlookup. exact Hs.
  - rewrite (startMonitoring_run _ _ _ _ _ Hlookup). unfold final at 1. cbn [fst snd].
    eapply sessions_consistent_untouched; [apply testEndpoint_frame|].
    apply armed_consistent; assumption.
Qed.

Lemma stopMonitoring_consistent url s :
  sessions_consistent s -> sessions_consistent (final (stopMonitoring url s)).
Proof.
  intros Hs. destruct (activeTests s !! url) as [timer|] eqn:Hlookup.
  - rewrite (stopMonitoring_active _ _ _ Hlookup). unfold final. cbn [fst snd].
    destruct Hs as (Hsession & Htimer & Hbound). unfold sessions_consistent. run.
    split; [|split].
    + intros url' timer'. destruct (decide (url = url')) as [<-|Hne].
      * rewrite lookup_delete_eq. discriminate.
      * rewrite lookup_delete_ne by exact Hne. intros Hlookup'.
        destruct (Hsession url' timer' Hlookup') as (options & Harmed).
        exists options. rewrite lookup_delete_ne; [exact Harmed|].
        intros <-. destruct (Hsession url timer Hlookup) as (options' & Harmed').
        unfold Timer in *. congruence.
    + intros timer' url' options. destruct (decide (timer = timer')) as [<-|Hne].
      * rewrite lookup_delete_eq. discriminate.
      * rewrite lookup_delete_ne by exact Hne. intros Harmed.
        pose proof (Htimer timer' url' options Harmed) as Hlookup'.
        rewrite lookup_delete_ne; [exact Hlookup'|]. intros <-. congruence.
    + intros timer'. destruct (decide (timer = timer')) as [<-|Hne].
      * rewrite lookup_delete_eq. congruence.
      * rewrite lookup_delete_ne by exact Hne. apply Hbound.
  - rewrite (stopMonitoring_idle _ _ Hlookup). exact Hs.
Qed.

Lemma sessions_consistent_boot : sessions_consistent boot.
Proof.
  unfold sessions_consistent, boot. cbn [activeTests intervals nextTimer].
  split; [|split]; intros *; rewrite lookup_empty; congruence.
Qed.

(** X16. Sessions and timers stay in step. When every session's timer is
    armed for that session's endpoint, every armed timer belongs to a
    session and no armed timer is unissued, the same holds after
    [startMonitoring] (whether it succeeds, fails as a duplicate or its
    initial cycle rejects), after [stopMonitoring], after a probe cycle and
    after a timer firing: no timer is leaked and no session loses its
    timer. *)
Theorem sessions_stay_consistent s :
  sessions_consistent s ->
  (forall DEFAULT_INTERVAL w url options,
     sessions_consistent (final (startMonitoring DEFAULT_INTERVAL w url options s)))
  /\ (forall url, sessions_consistent (final (stopMonitoring url s)))
  /\ (forall w url options, sessions_consistent (final (testEndpoint w url options s)))
  /\ (forall w timer, sessions_consistent (final (onInterval w timer s))).
Proof.
  intros Hs.
  split; [intros D w url options; apply startMonitoring_consistent, Hs|].
  split; [intros url; apply stopMonitoring_consistent, Hs|].
  split.
  - intros w url options.
    eapply sessions_consistent_untouched; [apply testEndpoint_frame | exact Hs].
  - intros w timer.
    eapply sessions_consistent_untouched; [apply onInterval_frame | exact Hs].
Qed.

Lemma sessions_stay_consistent_witness :
  sessions_consistent
    (final (stopMonitoring "https://a.test"
              (final (startMonitoring 30000 grafanaDown "https://a.test" None boot)))).
Proof.
  apply (proj1 (proj2 (sessions_stay_consistent
           (final (startMonitoring 30000 grafanaDown "https://a.test" None boot))
           (startMonitoring_consistent 30000 grafanaDown "https://a.test" None boot
              sessions_consistent_boot)))).
Defined.

(** X17. Starting and then stopping an endpoint is a round trip on the
    scheduler: from a consistent state in which the endpoint has no session,
    [startMonitoring] lists the endpoint among the active ones, and the
    [stopMonitoring] that follows clears exactly the timer that was armed
    and restores the session table and the set of armed timers. *)
Theorem start_then_stop_restores DEFAULT_INTERVAL w url options s :
  sessions_consistent s ->
  activeTests s !! url = None ->
  outcome (getActiveEndpoints (final (startMonitoring DEFAULT_INTERVAL w url options s)))
    = Ok ({[url]} ∪ dom (activeTests s))
  /\ events (stopMonitoring url (final (startMonitoring DEFAULT_INTERVAL w url options s)))
     = [ClearInterval (nextTimer s)]
  /\ activeTests
       (final (stopMonitoring url
                 (final (startMonitoring DEFAULT_INTERVAL w url options s))))
     = activeTests s
  /\ intervals
       (final (stopMonitoring url
                 (final (startMonitoring DEFAULT_INTERVAL w url options s))))
     = intervals s.
Proof.
  intros Hs Hfree. pose proof (sessions_consistent_fresh s Hs) as Hfresh.
  pose proof (testEndpoint_frame w url (normalize DEFAULT_INTERVAL options)
                (armed url (normalize DEFAULT_INTERVAL options) s))
    as (Hsessions & Htimers & _).
  assert (final (startMonitoring DEFAULT_INTERVAL w url options s)
          = final (testEndpoint w url (normalize DEFAULT_INTERVAL options)
                     (armed url (normalize DEFAULT_INTERVAL options) s))) as ->
    by (rewrite (startMonitoring_run _ _ _ _ _ Hfree); reflexivity).
  set (s1 := final (testEndpoint w url (normalize DEFAULT_INTERVAL options)
                      (armed url (normalize DEFAULT_INTERVAL options) s))) in *.
  assert (activeTests s1 !! url = Some (nextTimer s)) as Hactive.
  { rewrite Hsessions. unfold armed. run. apply lookup_insert_eq. }
  split.
  { unfold getActiveEndpoints, bind, get, ret, outcome. cbn [fst].
    rewrite Hsessions. unfold armed. run. rewrite dom_insert_L. reflexivity. }
  rewrite (stopMonitoring_active _ _ _ Hactive). unfold final, events. cbn [fst snd].
  split; [reflexivity|]. unfold set_sessions. cbn [activeTests intervals].
  rewrite Hsessions, Htimers. unfold armed. run.
  split; [apply delete_insert_id, Hfree | apply delete_insert_id, Hfresh].
Qed.

Lemma start_then_stop_restores_witness :
  outcome (getActiveEndpoints
             (final (startMonitoring 30000 healthy "https://a.test" None boot)))
    = Ok ({["https://a.test"]} ∪ dom (activeTests boot))
  /\ events (stopMonitoring "https://a.test"
               (final (startMonitoring 30000 healthy "https://a.test" None boot)))
     = [ClearInterval (nextTimer boot)]
  /\ activeTests
       (final (stopMonitoring "https://a.test"
                 (final (startMonitoring 30000 healthy "https://a.test" None boot))))
     = activeTests boot
  /\ intervals
       (final (stopMonitoring "https://a.test"
                 (final (startMonitoring 30000 healthy "https://a.test" None boot))))
     = intervals boot.
Proof.
  apply (start_then_stop_restores 30000 healthy "https://a.test" None boot
           sessions_consistent_boot).
  reflexivity.
Defined.

Lemma clearAll_run (timers : list Timer) : forall s,
  fold_right (fun timer rest => clearInterval timer ;; rest) (ret tt) timers s
  = (Ok tt,
     set_sessions (activeTests s)
                  (fold_left (fun armed timer => delete timer armed) timers (intervals s))
                  (nextTimer s) s,
     map ClearInterval timers).
Proof.
  induction timers as [|timer timers IH]; intros s.
  - destruct s. reflexivity.
  - cbn [fold_right map fold_left]. unfold clearInterval at 1. run. rewrite IH. reflexivity.
Qed.

Lemma deleteAll_lookup_None {A} (timers : list Timer) :
  forall (armed : gmap Timer A) timer,
  armed !! timer = None \/ In timer timers ->
  fold_left (fun armed timer => delete timer armed) timers armed !! timer = None.
Proof.
  induction timers as [|x timers IH]; intros armed timer Hcase; cbn [fold_left].
  - destruct Hcase as [Hnone|[]]. exact Hnone.
  - apply IH. destruct (decide (x = timer)) as [->|Hne].
    + left. apply lookup_delete_eq.
    + rewrite lookup_delete_ne by exact Hne.
      destruct Hcase as [Hnone|[Heq|Hin]]; [left; exact Hnone | contradiction | right; exact Hin].
Qed.

Lemma close_run s :
  close s
  = (Ok tt,
     set_sessions ∅
       (fold_left (fun armed timer => delete timer armed)
                  (map snd (map_to_list (activeTests s))) (intervals s))
       (nextTimer s) s,
     map ClearInterval (map snd (map_to_list (activeTests s)))).
Proof.
  unfold close, bind, get, put. rewrite clearAll_run. cbn [app]. rewrite app_nil_r.
  reflexivity.
Qed.

(** X18. [close] ends every session: it clears the timer of each session
    (and only those), empties the session table and, when sessions and
    timers were in step, leaves no timer armed. It never throws, and a
    second [close] finds nothing to do. *)
Theorem close_ends_every_session s :
  outcome (close s) = Ok tt
  /\ activeTests (final (close s)) = ∅
  /\ (forall timer, In (ClearInterval timer) (events (close s))
                    <-> exists url, activeTests s !! url = Some timer)
  /\ (sessions_consistent s -> intervals (final (close s)) = ∅)
  /\ close (final (close s)) = (Ok tt, final (close s), []).
Proof.
  rewrite !close_run. unfold outcome, final, events. cbn [fst snd].
  split; [reflexivity|]. split; [reflexivity|]. split; [|split].
  - intros timer. rewrite in_map_iff. split.
    + intros (t & [= ->] & Hin). apply in_map_iff in Hin as ([url t] & Hsnd & Hin).
      cbn in Hsnd. subst t. exists url.
      apply elem_of_map_to_list, list_elem_of_In. exact Hin.
    + intros (url & Hlookup). exists timer. split; [reflexivity|].
      apply in_map_iff. exists (url, timer). split; [reflexivity|].
      apply list_elem_of_In, elem_of_map_to_list. exact Hlookup.
  - intros (_ & Htimer & _). unfold set_sessions. cbn [intervals].
    apply map_eq. intros timer. rewrite lookup_empty.
    apply deleteAll_lookup_None.
    destruct (intervals s !! timer) as [[url options]|] eqn:Harmed; [right|left; reflexivity].
    apply in_map_iff. exists (url, timer). split; [reflexivity|].
    apply list_elem_of_In, elem_of_map_to_list. apply (Htimer timer url options Harmed).
  - unfold set_sessions. cbn [activeTests intervals nextTimer].
    rewrite map_to_list_empty. reflexivity.
Qed.

Lemma close_ends_every_session_witness :
  intervals (final (close (final (startMonitoring 30000 healthy "https://a.test" None boot))))
  = ∅.
Proof.
  apply (proj1 (proj2 (proj2 (proj2 (close_ends_every_session
           (final (startMonitoring 30000 healthy "https://a.test" None boot))))))).
  apply startMonitoring_consistent, sessions_consistent_boot.
Defined.

(** X19. A cycle started by the timer never rejects: whatever the probe,
    the store, Grafana or the evaluator do, the callback ends normally (an
    error is logged there). And once [stopMonitoring] has run, a firing of
    the stopped session's timer does nothing at all. *)
Theorem onInterval_never_rejects w timer s :
  outcome (onInterval w timer s) = Ok tt
  /\ (forall url, activeTests s !! url = Some timer ->
      onInterval w timer (final (stopMonitoring url s))
      = (Ok tt, final (stopMonitoring url s), [])).
Proof.
  split.
  - unfold onInterval. run. destruct (intervals s !! timer) as [[url options]|]; [|reflexivity].
    pose proof (testEndpoint_total w url options s) as Htotal.
    destruct (testEndpoint w url options s) as [[[r|e|] s1] ev1].
    + reflexivity.
    + reflexivity.
    + exfalso. apply Htotal. reflexivity.
  - intros url Hactive. rewrite (stopMonitoring_active _ _ _ Hactive).
    unfold final. cbn [fst snd]. unfold onInterval. run.
    rewrite lookup_delete_eq. reflexivity.
Qed.

Lemma onInterval_never_rejects_witness :
  onInterval grafanaDown 0%nat
    (final (stopMonitoring "https://a.test"
              (final (startMonitoring 30000 grafanaDown "https://a.test" None boot))))
  = (Ok tt,
     final (stopMonitoring "https://a.test"
              (final (startMonitoring 30000 grafanaDown "https://a.test" None boot))),
     []).
Proof.
  apply (proj2 (onInterval_never_rejects grafanaDown 0%nat
           (final (startMonitoring 30000 grafanaDown "https://a.test" None boot)))
         "https://a.test").
  vm_compute. reflexivity.
Defined.

(** X20. Sessions of different endpoints do not disturb each other: after
    an endpoint has been started, starting another endpoint that has no
    session is not refused, gets a timer of its own, and both sessions are
    registered with their timers armed for their own endpoint and
    options. *)
Theorem distinct_endpoints_both_start DEFAULT_INTERVAL w w' url url' options options' s :
  url <> url' ->
  activeTests s !! url = None ->
  activeTests s !! url' = None ->
  events (startMonitoring DEFAULT_INTERVAL w' url' options'
            (final (startMonitoring DEFAULT_INTERVAL w url options s)))
    = SetInterval (S (nextTimer s))
        (default DEFAULT_INTERVAL (interval (normalize DEFAULT_INTERVAL options')))
      :: events (testEndpoint w' url' (normalize DEFAULT_INTERVAL options')
                   (armed url' (normalize DEFAULT_INTERVAL options')
                      (final (startMonitoring DEFAULT_INTERVAL w url options s))))
  /\ activeTests
       (final (startMonitoring DEFAULT_INTERVAL w' url' options'
                 (final (startMonitoring DEFAULT_INTERVAL w url options s))))
     = <[url' := S (nextTimer s)]> (<[url := nextTimer s]> (activeTests s))
  /\ intervals
       (final (startMonitoring DEFAULT_INTERVAL w' url' options'
                 (final (startMonitoring DEFAULT_INTERVAL w url options s))))
     = <[S (nextTimer s) := (url', normalize DEFAULT_INTERVAL options')]>
         (<[nextTimer s := (url, normalize DEFAULT_INTERVAL options)]> (intervals s)).
Proof.
  intros Hne Hfree Hfree'.
  pose proof (testEndpoint_frame w url (normalize DEFAULT_INTERVAL options)
                (armed url (normalize DEFAULT_INTERVAL options) s))
    as (Hsessions & Htimers & Hnext & _).
  assert (final (startMonitoring DEFAULT_INTERVAL w url options s)
          = final (testEndpoint w url (normalize DEFAULT_INTERVAL options)
                     (armed url (normalize DEFAULT_INTERVAL options) s))) as Hfirst
    by (rewrite (startMonitoring_run _ _ _ _ _ Hfree); reflexivity).
  rewrite Hfirst.
  set (s1 := final (testEndpoint w url (normalize DEFAULT_INTERVAL options)
                      (armed url (normalize DEFAULT_INTERVAL options) s))) in *.
  unfold armed in Hsessions, Htimers, Hnext.
  cbn [activeTests intervals nextTimer set_sessions] in Hsessions, Htimers, Hnext.
  assert (activeTests s1 !! url' = None) as Hfree1.
  { rewrite Hsessions, lookup_insert_ne by exact Hne. exact Hfree'. }
  pose proof (testEndpoint_frame w' url' (normalize DEFAULT_INTERVAL options')
                (armed url' (normalize DEFAULT_INTERVAL options') s1))
    as (Hsessions' & Htimers' & _).
  assert (final (startMonitoring DEFAULT_INTERVAL w' url' options' s1)
          = final (testEndpoint w' url' (normalize DEFAULT_INTERVAL options')
                     (armed url' (normalize DEFAULT_INTERVAL options') s1))) as ->
    by (rewrite (startMonitoring_run _ _ _ _ _ Hfree1); reflexivity).
  split.
  { rewrite (startMonitoring_run _ _ _ _ _ Hfree1). unfold events at 1. cbn [snd].
    rewrite Hnext. reflexivity. }
  rewrite Hsessions', Htimers'. unfold armed. run.
  rewrite Hsessions, Htimers, Hnext. split; reflexivity.
Qed.

Lemma distinct_endpoints_both_start_witness :
  events (startMonitoring 30000 erroring "https://b.test" None
            (final (startMonitoring 30000 healthy "https://a.test" None boot)))
    = SetInterval (S (nextTimer boot))
        (default 30000%Q (interval (normalize 30000 None)))
      :: events (testEndpoint erroring "https://b.test" (normalize 30000 None)
                   (armed "https://b.test" (normalize 30000 None)
                      (final (startMonitoring 30000 healthy "https://a.test" None boot))))
  /\ activeTests
       (final (startMonitoring 30000 erroring "https://b.test" None
                 (final (startMonitoring 30000 healthy "https://a.test" None boot))))
     = <["https://b.test" := S (nextTimer boot)]>
         (<["https://a.test" := nextTimer boot]> (activeTests boot))
  /\ intervals
       (final (startMonitoring 30000 erroring "https://b.test" None
                 (final (startMonitoring 30000 healthy "https://a.test" None boot))))
     = <[S (nextTimer boot) := ("https://b.test", normalize 30000 None)]>
         (<[nextTimer boot := ("https://a.test", normalize 30000 None)]> (intervals boot)).
Proof.
  apply (distinct_endpoints_both_start 30000 healthy erroring
           "https://a.test" "https://b.test" None None boot);
    [discriminate | reflexivity | reflexivity].
Defined.

(** ** The management surface *)

Lemma alertBodySchema_window is_uri body :
  alertBodySchema is_uri body = true -> (1000 <= windowSize body)%Q.
Proof.
  unfold alertBodySchema. rewrite !andb_true_iff. intros [[_ Hwindow] _].
  apply Qle_bool_iff, Hwindow.
Qed.

(** X21. [POST /alerts] validates at the boundary. A body the schema
    rejects is refused and changes nothing; a body it accepts is stored as
    is, and then its window size is at least 1000, its [maxLatency] is not
    negative and its [minSuccessRate] lies between 0 and 1. So when all
    thresholds come through this route, every window size in memory is
    non-negative. *)
Theorem postAlerts_validates is_uri body s :
  (alertBodySchema is_uri body = false ->
   postAlerts is_uri body s = (Throw ValidationError, s, []))
  /\ (alertBodySchema is_uri body = true ->
      postAlerts is_uri body s = setAlertThreshold body s
      /\ (1000 <= windowSize body)%Q
      /\ (forall m, maxLatency body = Some m -> (0 <= m)%Q)
      /\ (forall m, minSuccessRate body = Some m -> (0 <= m)%Q /\ (m <= 1)%Q))
  /\ (windows_nonneg s -> windows_nonneg (final (postAlerts is_uri body s))).
Proof.
  split; [intros Hbad; unfold postAlerts; rewrite Hbad; reflexivity|]. split.
  - intros Hgood. split; [unfold postAlerts; rewrite Hgood; reflexivity|].
    split; [apply (alertBodySchema_window is_uri), Hgood|].
    unfold alertBodySchema in Hgood. rewrite !andb_true_iff in Hgood.
    destruct Hgood as [[[[_ Hmax] Hmin] _] _]. split.
    + intros m Hm. rewrite Hm in Hmax. apply Qle_bool_iff, Hmax.
    + intros m Hm. rewrite Hm in Hmin. cbn [optional] in Hmin.
      apply andb_true_iff in Hmin as [Hlo Hhi]. split; apply Qle_bool_iff; assumption.
  - intros Hs. unfold postAlerts.
    destruct (alertBodySchema is_uri body) eqn:Hschema; [|exact Hs].
    unfold windows_nonneg, setAlertThreshold. run. intros url threshold.
    destruct (decide (threshold_endpoint body = url)) as [<-|Hne].
    + rewrite lookup_insert_eq. intros [= <-].
      eapply Qle_trans; [|apply (alertBodySchema_window is_uri), Hschema]. discriminate.
    + rewrite lookup_insert_ne by exact Hne. apply Hs.
Qed.

(** ** Grafana line protocol: [escapeValue] *)

Section LineProtocolFacts.

Import Stdlib.Strings.Ascii.

Lemma escapeValue_cons c rest :
  escapeValue (String c rest)
  = if isSeparator c then String "\" (String c (escapeValue rest))
    else String c (escapeValue rest).
Proof.
  unfold escapeValue, isSeparator. cbn [replaceAll].
  destruct (Ascii.eqb_spec c ",") as [->|Hcomma]; [reflexivity|].
  cbn [replaceAll orb].
  destruct (Ascii.eqb_spec c " ") as [->|Hspace]; [reflexivity|].
  cbn [replaceAll orb].
  destruct (Ascii.eqb_spec c "=") as [->|Hequals]; reflexivity.
Qed.

Lemma escapeValue_escapeEach value : escapeValue value = escapeEach value.
Proof.
  induction value as [|c rest IH]; [reflexivity|].
  rewrite escapeValue_cons. cbn [escapeEach]. rewrite IH. reflexivity.
Qed.

Lemma bareSeparator_escapeEach value : forall escaped,
  bareSeparator escaped (escapeEach value) = false.
Proof.
  induction value as [|c rest IH]; intros escaped; [reflexivity|]. cbn [escapeEach].
  destruct (isSeparator c) eqn:Hsep; cbn [bareSeparator].
  - change (isSeparator "\") with false. change (Ascii.eqb "\" "\") with true.
    rewrite Hsep. cbn [andb negb orb]. apply IH.
  - rewrite Hsep. cbn [andb orb]. apply IH.
Qed.

(** X22. The three replacements of [escapeValue] do not interfere: their
    composition puts exactly one backslash in front of every comma, space
    and equals sign and changes nothing else. In the result no separator is
    left bare (each one directly follows a backslash), and a value without
    separators is returned unchanged. *)
Theorem escapeValue_escapes_every_separator value :
  escapeValue value = escapeEach value
  /\ bareSeparator false (escapeValue value) = false
  /\ (hasSeparator value = false -> escapeValue value = value).
Proof.
  split; [apply escapeValue_escapeEach|].
  split; [rewrite escapeValue_escapeEach; apply bareSeparator_escapeEach|].
  rewrite escapeValue_escapeEach.
  induction value as [|c rest IH]; [reflexivity|]. cbn [hasSeparator escapeEach].
  destruct (isSeparator c); [discriminate|]. cbn [orb]. intros Hrest.
  f_equal. apply IH, Hrest.
Qed.

Lemma escapeEach_head value c rest :
  escapeEach value = String c rest -> isSeparator c = false.
Proof.
  destruct value as [|x value]; [discriminate|]. cbn [escapeEach].
  destruct (isSeparator x) eqn:Hsep; intros [= <- _]; [reflexivity | exact Hsep].
Qed.

Lemma escapeEach_injective : forall a b, escapeEach a = escapeEach b -> a = b.
Proof.
  induction a as [|x a IH]; intros [|y b]; cbn [escapeEach].
  - reflexivity.
  - destruct (isSeparator y); discriminate.
  - destruct (isSeparator x); discriminate.
  - destruct (isSeparator x) eqn:Hx, (isSeparator y) eqn:Hy.
    + intros [= -> Hrest]. rewrite (IH b Hrest). reflexivity.
    + intros [= <- Hrest]. symmetry in Hrest.
      apply escapeEach_head in Hrest. congruence.
    + intros [= -> Hrest]. apply escapeEach_head in Hrest. congruence.
    + intros [= -> Hrest]. rewrite (IH b Hrest). reflexivity.
Qed.

(** X23. [escapeValue] loses nothing: two different tag values are never
    escaped to the same text. *)
Theorem escapeValue_injective a b : escapeValue a = escapeValue b -> a = b.
Proof. rewrite !escapeValue_escapeEach. apply escapeEach_injective. Qed.

Lemma escapeValue_injective_witness : "a,b"%string = "a,b"%string.
Proof.
  apply (escapeValue_injective "a,b" "a,b"). reflexivity.
Defined.

End LineProtocolFacts.

(** ** Default endpoints: credentials *)

Section DefaultEndpointsFacts.

Variable URL : Type.
Variable new_URL : string -> option URL.
Variable searchParams_set : string -> string -> URL -> URL.
Variable URL_toString : URL -> string.
Variable base64 : string -> string.

Lemma secret_None env name :
  secret env name = None <-> env !! name = None \/ env !! name = Some ""%string.
Proof.
  unfold secret. destruct (env !! name) as [value|]; [|tauto].
  destruct (String.eqb_spec value "") as [->|Hne].
  - split; [right; reflexivity | reflexivity].
  - split; [discriminate | intros [H|[= H]]; congruence].
Qed.

(** X24. [getEndpointWithAuth] fails exactly when the url of the endpoint
    is not a valid URL or a secret its authentication needs is missing from
    the environment, where a variable set to the empty string counts as
    missing. An endpoint without authentication only needs a valid url. *)
Theorem getEndpointWithAuth_fails_iff env endpoint :
  ((exists error,
      getEndpointWithAuth URL new_URL searchParams_set URL_toString base64 env endpoint
      = inl error)
   <-> new_URL (de_url endpoint) = None
       \/ missingSecret env (de_auth endpoint) = true)
  /\ (forall name, secret env name = None
                   <-> env !! name = None \/ env !! name = Some ""%string).
Proof.
  split; [|intros name; apply secret_None].
  unfold getEndpointWithAuth, missingSecret.
  destruct (new_URL (de_url endpoint)) as [url|]; [|split; eauto].
  destruct (de_auth endpoint) as [envVar [|] paramName|envVar|user pass|].
  - destruct (secret env envVar); cbn; split;
      [intros [? [=]] | intros [[=]|[=]] | eauto | eauto].
  - destruct (secret env envVar); cbn; split;
      [intros [? [=]] | intros [[=]|[=]] | eauto | eauto].
  - destruct (secret env envVar); cbn; split;
      [intros [? [=]] | intros [[=]|[=]] | eauto | eauto].
  - destruct (secret env user), (secret env pass); cbn; split;
      try (intros [? [=]]); try (intros [[=]|[=]]); eauto.
  - split; [intros [? [=]] | intros [[=]|[=]]].
Qed.

(** X25. When [getEndpointWithAuth] returns a request, the credential is
    in it: an API key sits in the configured header or query parameter, a
    bearer token or the base64 of [username:password] in the
    [Authorization] header. The body is the endpoint's body and every
    header of the endpoint other than the one that carries the credential
    is passed on unchanged. *)
Theorem getEndpointWithAuth_attaches_credential env endpoint request :
  getEndpointWithAuth URL new_URL searchParams_set URL_toString base64 env endpoint
  = inr request ->
  ar_body request = de_body endpoint
  /\ (forall name, credentialHeader (de_auth endpoint) <> Some name ->
      ar_headers request !! name = default ∅ (de_headers endpoint) !! name)
  /\ exists url, new_URL (de_url endpoint) = Some url
     /\ match de_auth endpoint with
        | apiKey envVar header paramName =>
            ar_url request = URL_toString url
            /\ exists key, secret env envVar = Some key
                           /\ ar_headers request !! paramName = Some key
        | apiKey envVar query paramName =>
            ar_headers request = default ∅ (de_headers endpoint)
            /\ exists key, secret env envVar = Some key
                           /\ ar_url request
                              = URL_toString (searchParams_set paramName key url)
        | bearer envVar =>
            ar_url request = URL_toString url
            /\ exists token, secret env envVar = Some token
                             /\ ar_headers request !! "Authorization"%string
                                = Some ("Bearer " ++ token)%string
        | basic usernameEnvVar passwordEnvVar =>
            ar_url request = URL_toString url
            /\ exists username password,
                 secret env usernameEnvVar = Some username
                 /\ secret env passwordEnvVar = Some password
                 /\ ar_headers request !! "Authorization"%string
                    = Some ("Basic " ++ base64 (username ++ ":" ++ password))%string
        | none =>
            ar_url request = URL_toString url
            /\ ar_headers request = default ∅ (de_headers endpoint)
        end.
Proof.
  unfold getEndpointWithAuth, credentialHeader.
  destruct (new_URL (de_url endpoint)) as [url|]; [|discriminate].
  destruct (de_auth endpoint) as [envVar [|] paramName|envVar|user pass|].
  - destruct (secret env envVar) as [key|]; [|discriminate]. intros [= <-].
    cbn [ar_body ar_headers ar_url]. split; [reflexivity|]. split.
    + intros name Hname. apply lookup_insert_ne. congruence.
    + exists url. split; [reflexivity|]. split; [reflexivity|].
      exists key. split; [reflexivity | apply lookup_insert_eq].
  - destruct (secret env envVar) as [key|]; [|discriminate]. intros [= <-].
    cbn [ar_body ar_headers ar_url]. split; [reflexivity|]. split; [reflexivity|].
    exists url. split; [reflexivity|]. split; [reflexivity|].
    exists key. split; reflexivity.
  - destruct (secret env envVar) as [token|]; [|discriminate]. intros [= <-].
    cbn [ar_body ar_headers ar_url]. split; [reflexivity|]. split.
    + intros name Hname. apply lookup_insert_ne. congruence.
    + exists url. split; [reflexivity|]. split; [reflexivity|].
      exists token. split; [reflexivity | apply lookup_insert_eq].
  - destruct (secret env user) as [username|]; [|discriminate].
    destruct (secret env pass) as [password|]; [|discriminate]. intros [= <-].
    cbn [ar_body ar_headers ar_url]. split; [reflexivity|]. split.
    + intros name Hname. apply lookup_insert_ne. congruence.
    + exists url. split; [reflexivity|]. split; [reflexivity|].
      exists username, password. repeat split. apply lookup_insert_eq.
  - intros [= <-]. cbn [ar_body ar_headers ar_url]. split; [reflexivity|].
    split; [reflexivity|]. exists url. repeat split.
Qed.

End DefaultEndpointsFacts.

Lemma getEndpointWithAuth_attaches_credential_witness :
  ar_body bearerRequest = de_body bearerEndpoint
  /\ (forall name, credentialHeader (de_auth bearerEndpoint) <> Some name ->
      ar_headers bearerRequest !! name = default ∅ (de_headers bearerEndpoint) !! name)
  /\ exists url, Some (de_url bearerEndpoint) = Some url
     /\ (ar_url bearerRequest = url
         /\ exists token, secret tokenEnv "API_TOKEN" = Some token
                          /\ ar_headers bearerRequest !! "Authorization"%string
                             = Some ("Bearer " ++ token)%string).
Proof.
  apply (getEndpointWithAuth_attaches_credential string Some
           (fun name value url => (url ++ "?" ++ name ++ "=" ++ value)%string)
           (fun url => url) (fun text => text)
           tokenEnv bearerEndpoint bearerRequest).
  reflexivity.
Defined.
